(** * Truth-table tautology checker: [app.py] and [chat_bot12.py]

    Both programs decide whether a propositional formula, given as
    text, is a tautology.  Neither tokenizes or parses the formula
    itself: [evaluate_expression] rewrites the connectives into Python
    words by textual substitution and hands the rewritten text to
    Python's [eval]; [check_validity] runs it over every row of the
    truth table.

    The development has these parts:
    - [Py]: the Python library functions the two programs call
      ([str.replace], [str.strip], the three [re.sub] patterns,
      [itertools.product], [sorted(set(..))]) and the fragment of
      [eval] that the rewritten formulas fall into;
    - [App]: the functions of [app.py];
    - [ChatBot]: the functions of [chat_bot12.py];
    - the properties of the two checkers;
    - [Page] and [Chat]: the form handler of [app.py] and one round of
      the loop of [chat_bot12.py], with what they show of a verdict;
    - the formulas that both programs decide correctly, and the
      implications that neither evaluates.

    Text is a [string] of characters with code points 0..255. *)

From Stdlib Require Import Bool List Arith NArith Lia Ascii String Sorted FinFun.
Import ListNotations.
Open Scope string_scope.

Module Py.

(** ** Character classes (Python's [str] predicates on one character) *)

Definition code (c : ascii) : N := N_of_ascii c.

Definition between (lo hi : N) (c : ascii) : bool :=
  ((lo <=? code c) && (code c <=? hi))%N.

(** The regular-expression class [[A-Z]]. *)
Definition is_AZ (c : ascii) : bool := between 65 90 c.

Definition is_az (c : ascii) : bool := between 97 122 c.

Definition is_digit (c : ascii) : bool := between 48 57 c.

(** [c.islower()]: the ASCII small letters and, above 127, the
    feminine and masculine ordinal indicators, the micro sign and the
    small letters of Latin-1. *)
Definition islower (c : ascii) : bool :=
  is_az c || (code c =? 170)%N || (code c =? 181)%N || (code c =? 186)%N
  || between 223 246 c || between 248 255 c.

(** [c.isalpha()]. *)
Definition isalpha (c : ascii) : bool :=
  is_AZ c || islower c || between 192 214 c || between 216 222 c.

(** [c.isspace()], which is also the class [\s] of [re]. *)
Definition isspace (c : ascii) : bool :=
  between 9 13 c || between 28 32 c || (code c =? 133)%N || (code c =? 160)%N.

(** The class [\w] of [re]: alphanumeric characters and the underscore. *)
Definition is_word (c : ascii) : bool :=
  isalpha c || is_digit c || (code c =? 95)%N
  || (code c =? 178)%N || (code c =? 179)%N || (code c =? 185)%N
  || between 188 190 c.

(** ** [str.replace], [str.strip], [str.isspace], [str.join] *)

(** [interleave new s] is [s.replace('', new)] without its leading [new]. *)
Fixpoint interleave (new s : string) : string :=
  match s with
  | EmptyString => EmptyString
  | String c rest => String c (new ++ interleave new rest)
  end.

(** The scan of [s.replace(old, new)] for a non-empty [old]: [skip] counts
    the characters of a match that are still to be consumed. *)
Fixpoint replace_scan (old new : string) (skip : nat) (s : string) : string :=
  match s with
  | EmptyString => EmptyString
  | String c rest =>
      match skip with
      | S k => replace_scan old new k rest
      | O =>
          if prefix old s
          then new ++ replace_scan old new (length old - 1) rest
          else String c (replace_scan old new 0 rest)
      end
  end.

(** [s.replace(old, new)]: every non-overlapping occurrence of [old],
    leftmost first. *)
Definition replace (old new s : string) : string :=
  match old with
  | EmptyString => new ++ interleave new s
  | _ => replace_scan old new 0 s
  end.

Fixpoint lstrip (s : string) : string :=
  match s with
  | EmptyString => EmptyString
  | String c rest => if isspace c then lstrip rest else s
  end.

Fixpoint rstrip (s : string) : string :=
  match s with
  | EmptyString => EmptyString
  | String c rest =>
      match rstrip rest with
      | EmptyString => if isspace c then EmptyString else String c EmptyString
      | kept => String c kept
      end
  end.

(** [s.strip()]. *)
Definition strip (s : string) : string := rstrip (lstrip s).

Fixpoint all_chars (p : ascii -> bool) (s : string) : bool :=
  match s with
  | EmptyString => true
  | String c rest => p c && all_chars p rest
  end.

Fixpoint any_char (p : ascii -> bool) (s : string) : bool :=
  match s with
  | EmptyString => false
  | String c rest => p c || any_char p rest
  end.

(** [s.isspace()]: false on the empty string. *)
Definition str_isspace (s : string) : bool :=
  match s with
  | EmptyString => false
  | _ => all_chars isspace s
  end.

(** [sep.join(parts)]. *)
Definition join (sep : string) (parts : list string) : string := concat sep parts.

(** [str(value)] for a bool. *)
Definition str_bool (b : bool) : string := if b then "True" else "False".

(** ** The three [re.sub] calls *)

(** [re.sub(r'\s+', ' ', s)]: [in_run] tells that the previous character
    belonged to the run of white space being replaced. *)
Fixpoint sub_spaces (in_run : bool) (s : string) : string :=
  match s with
  | EmptyString => EmptyString
  | String c rest =>
      if isspace c
      then if in_run then sub_spaces true rest else String " " (sub_spaces true rest)
      else String c (sub_spaces false rest)
  end.

(** The longest prefix of [s] in the class [p], and what follows it. *)
Fixpoint span (p : ascii -> bool) (s : string) : string * string :=
  match s with
  | EmptyString => (EmptyString, EmptyString)
  | String c rest =>
      if p c then let (took, left) := span p rest in (String c took, left)
      else (EmptyString, s)
  end.

Fixpoint drop (n : nat) (s : string) : string :=
  match n, s with
  | O, _ => s
  | S k, EmptyString => EmptyString
  | S k, String _ rest => drop k rest
  end.

(** A match of [(not\s+)([A-Z]+)] at the start of [s]: the letters of
    group 2 and the length of the whole match. *)
Definition match_not (s : string) : option (string * nat) :=
  if prefix "not" s then
    let (spaces, after) := span isspace (drop 3 s) in
    let (letters, _) := span is_AZ after in
    match spaces, letters with
    | String _ _, String _ _ => Some (letters, 3 + length spaces + length letters)
    | _, _ => None
    end
  else None.

(** [re.sub(r'(not\s+)([A-Z]+)', r'not (\2)', s)]. *)
Fixpoint sub_not (skip : nat) (s : string) : string :=
  match s with
  | EmptyString => EmptyString
  | String c rest =>
      match skip with
      | S k => sub_not k rest
      | O =>
          match match_not s with
          | Some (letters, len) => "not (" ++ letters ++ ")" ++ sub_not (len - 1) rest
          | None => String c (sub_not 0 rest)
          end
      end
  end.

Definition starts_with_word (s : string) : bool :=
  match s with
  | EmptyString => false
  | String c _ => is_word c
  end.

(** [re.sub(r'\b' + prop + r'\b', repl, s)] for a one-letter [prop]:
    [after_word] tells that the previous character is in [\w]. *)
Fixpoint sub_word (prop : ascii) (repl : string) (after_word : bool) (s : string)
  : string :=
  match s with
  | EmptyString => EmptyString
  | String c rest =>
      if Ascii.eqb c prop && negb after_word && negb (starts_with_word rest)
      then repl ++ sub_word prop repl true rest
      else String c (sub_word prop repl (is_word c) rest)
  end.

(** [re.findall(r'[A-Z]', s)]. *)
Fixpoint findall_AZ (s : string) : list ascii :=
  match s with
  | EmptyString => []
  | String c rest => if is_AZ c then c :: findall_AZ rest else findall_AZ rest
  end.

(** ** [set], [sorted], [zip], [itertools.product] *)

(** [set(xs)], as a list without repetitions. *)
Definition set (xs : list ascii) : list ascii := nodup ascii_dec xs.

Fixpoint insert (x : ascii) (sorted_part : list ascii) : list ascii :=
  match sorted_part with
  | [] => [x]
  | y :: ys => if (code x <=? code y)%N then x :: sorted_part else y :: insert x ys
  end.

(** [sorted(xs)] on one-character strings: by code point. *)
Fixpoint sorted (xs : list ascii) : list ascii :=
  match xs with
  | [] => []
  | x :: rest => insert x (sorted rest)
  end.

(** [itertools.product(pool, repeat=n)], as the library documents it:
    each round extends every partial tuple by every element of the pool. *)
Fixpoint product {A : Type} (pool : list A) (repeat : nat) : list (list A) :=
  match repeat with
  | O => [[]]
  | S n => flat_map (fun x => map (fun y => (x ++ [y])%list) pool) (product pool n)
  end.

(** ** The fragment of [eval]

    The rewritten formulas are built from names, the words [and], [or],
    [not], [True], [False], parentheses and, when an arrow was cut in
    two, the signs [<] and [>].  [eval] is modelled on exactly that
    fragment, together with the characters that belong to no Python
    token; on any other text (another character, another reserved
    word, a call, an empty tuple, a chained comparison, a name bound in
    neither dictionary, nesting deeper than [fuel]) the model gives
    [None] and says nothing. *)

(** Python objects that the fragment can produce: the two truth values
    and the function objects bound to [implies] and [iff]. *)
Inductive value : Type :=
| VBool (b : bool)
| VFunction (name : string).

Inductive exn : Type := SyntaxError | TypeError.

Inductive outcome : Type :=
| Returns (v : value)
| Raises (e : exn).

Definition dict : Type := list (string * value).

Fixpoint get (d : dict) (key : string) : option value :=
  match d with
  | [] => None
  | (k, v) :: rest => if String.eqb k key then Some v else get rest key
  end.

(** [bool(v)]: a function object is true. *)
Definition truthy (v : value) : bool :=
  match v with
  | VBool b => b
  | VFunction _ => true
  end.

(** [v is False]. *)
Definition is_False (v : value) : bool :=
  match v with
  | VBool false => true
  | _ => false
  end.

Inductive token : Type :=
| NAME (id : string)
| TRUE | FALSE | AND | OR | NOT
| LPAR | RPAR | LESS | GREATER.

(** The reserved words that the fragment leaves out. *)
Definition other_keywords : list string :=
  ["None"; "as"; "assert"; "async"; "await"; "break"; "class"; "continue";
   "def"; "del"; "elif"; "else"; "except"; "finally"; "for"; "from";
   "global"; "if"; "import"; "in"; "is"; "lambda"; "nonlocal"; "pass";
   "raise"; "return"; "try"; "while"; "with"; "yield"].

Definition word_token (w : string) : option token :=
  if String.eqb w "and" then Some AND
  else if String.eqb w "or" then Some OR
  else if String.eqb w "not" then Some NOT
  else if String.eqb w "True" then Some TRUE
  else if String.eqb w "False" then Some FALSE
  else if existsb (String.eqb w) other_keywords then None
  else Some (NAME w).

(** What the tokenizer makes of a text: its tokens; a character that
    no Python token contains, at which the tokenizer itself raises the
    syntax error; or a text outside the fragment. *)
Inductive lexed : Type :=
| Tokens (ts : list token)
| Stray_character
| Outside.

Definition emit (t : token) (following : lexed) : lexed :=
  match following with
  | Tokens ts => Tokens (t :: ts)
  | other => other
  end.

(** Emits the identifier read so far, if any, in front of [following]. *)
Definition flush (word : string) (following : lexed) : lexed :=
  match word with
  | EmptyString => following
  | _ =>
      match word_token word with
      | Some t => emit t following
      | None => Outside
      end
  end.

Definition is_ident_char (c : ascii) : bool :=
  is_AZ c || is_az c || is_digit c || (code c =? 95)%N.

Definition next_in (chars : string) (s : string) : bool :=
  match s with
  | EmptyString => false
  | String c _ => any_char (Ascii.eqb c) chars
  end.

(** The dollar sign, the question mark and the backquote occur in no
    token. *)
Definition is_stray (c : ascii) : bool :=
  Ascii.eqb c "$" || Ascii.eqb c "?" || Ascii.eqb c "`".

(** The tokenizer: [word] is the identifier being read.  Identifiers are
    the longest runs of letters, digits and underscores; [<] and [>]
    are tokens only when no longer operator starts there.  The text is
    read from the left, so what comes first decides. *)
Fixpoint lex (word : string) (s : string) : lexed :=
  match s with
  | EmptyString => flush word (Tokens [])
  | String c rest =>
      if is_ident_char c then
        if is_digit c && String.eqb word "" then Outside
        else lex (word ++ String c "") rest
      else
        flush word
          (if Ascii.eqb c " " then lex "" rest
           else if Ascii.eqb c "(" then emit LPAR (lex "" rest)
           else if Ascii.eqb c ")" then emit RPAR (lex "" rest)
           else if Ascii.eqb c "<" then
             if next_in "<=>" rest then Outside else emit LESS (lex "" rest)
           else if Ascii.eqb c ">" then
             if next_in ">=" rest then Outside else emit GREATER (lex "" rest)
           else if is_stray c then Stray_character
           else Outside)
  end.

Inductive cmpop : Type := Lt | Gt.

Inductive expr : Type :=
| Name (id : string)
| Constant (b : bool)
| Not (operand : expr)
| And (lhs rhs : expr)
| Or (lhs rhs : expr)
| Compare (op : cmpop) (lhs rhs : expr).

Inductive parsed : Type :=
| Parsed (e : expr) (rest : list token)
| Invalid_syntax
| Beyond.

(** A primary followed by an opening parenthesis is a call. *)
Definition no_call (e : expr) (rest : list token) : parsed :=
  match rest with
  | LPAR :: _ => Beyond
  | _ => Parsed e rest
  end.

Definition no_chain (op : cmpop) (lhs : expr) (rhs : parsed) : parsed :=
  match rhs with
  | Parsed _ (LESS :: _) | Parsed _ (GREATER :: _) => Beyond
  | Parsed e rest => Parsed (Compare op lhs e) rest
  | failure => failure
  end.

(** Python's expression grammar on these tokens:
    disjunction > conjunction > inversion > comparison > primary. *)
Fixpoint disjunction (fuel : nat) (ts : list token) : parsed :=
  match fuel with
  | O => Beyond
  | S fuel' =>
      match conjunction fuel' ts with
      | Parsed e (OR :: rest) =>
          match disjunction fuel' rest with
          | Parsed e' rest' => Parsed (Or e e') rest'
          | failure => failure
          end
      | other => other
      end
  end
with conjunction (fuel : nat) (ts : list token) : parsed :=
  match fuel with
  | O => Beyond
  | S fuel' =>
      match inversion fuel' ts with
      | Parsed e (AND :: rest) =>
          match conjunction fuel' rest with
          | Parsed e' rest' => Parsed (And e e') rest'
          | failure => failure
          end
      | other => other
      end
  end
with inversion (fuel : nat) (ts : list token) : parsed :=
  match fuel with
  | O => Beyond
  | S fuel' =>
      match ts with
      | NOT :: rest =>
          match inversion fuel' rest with
          | Parsed e rest' => Parsed (Not e) rest'
          | failure => failure
          end
      | _ => comparison fuel' ts
      end
  end
with comparison (fuel : nat) (ts : list token) : parsed :=
  match fuel with
  | O => Beyond
  | S fuel' =>
      match primary fuel' ts with
      | Parsed e (LESS :: rest) => no_chain Lt e (primary fuel' rest)
      | Parsed e (GREATER :: rest) => no_chain Gt e (primary fuel' rest)
      | other => other
      end
  end
with primary (fuel : nat) (ts : list token) : parsed :=
  match fuel with
  | O => Beyond
  | S fuel' =>
      match ts with
      | NAME id :: rest => no_call (Name id) rest
      | TRUE :: rest => no_call (Constant true) rest
      | FALSE :: rest => no_call (Constant false) rest
      | LPAR :: RPAR :: _ => Beyond
      | LPAR :: rest =>
          match disjunction fuel' rest with
          | Parsed e (RPAR :: rest') => no_call e rest'
          | Parsed _ _ => Invalid_syntax
          | failure => failure
          end
      | _ => Invalid_syntax
      end
  end.

(** Nesting that the fragment covers; Python's own limits lie above it. *)
Definition fuel : nat := 400.

(** [a < b] and [a > b]: truth values compare as the integers 0 and 1,
    a function object is not ordered. *)
Definition compare_values (op : cmpop) (a b : value) : outcome :=
  match a, b with
  | VBool x, VBool y =>
      Returns (VBool (match op with Lt => negb x && y | Gt => x && negb y end))
  | _, _ => Raises TypeError
  end.

(** Evaluation, left to right with Python's short-circuit rules: [and]
    and [or] return one of their operands.  Locals are searched before
    globals. *)
Fixpoint evaluate (globals locals : dict) (e : expr) : option outcome :=
  match e with
  | Name id =>
      match get locals id with
      | Some v => Some (Returns v)
      | None => option_map Returns (get globals id)
      end
  | Constant b => Some (Returns (VBool b))
  | Not operand =>
      match evaluate globals locals operand with
      | Some (Returns v) => Some (Returns (VBool (negb (truthy v))))
      | other => other
      end
  | And lhs rhs =>
      match evaluate globals locals lhs with
      | Some (Returns v) => if truthy v then evaluate globals locals rhs else Some (Returns v)
      | other => other
      end
  | Or lhs rhs =>
      match evaluate globals locals lhs with
      | Some (Returns v) => if truthy v then Some (Returns v) else evaluate globals locals rhs
      | other => other
      end
  | Compare op lhs rhs =>
      match evaluate globals locals lhs with
      | Some (Returns a) =>
          match evaluate globals locals rhs with
          | Some (Returns b) => Some (compare_values op a b)
          | other => other
          end
      | other => other
      end
  end.

(** [eval(source, globals, locals)]: the text is compiled first, so a
    syntax error is raised before anything is looked up. *)
Definition eval (source : string) (globals locals : dict) : option outcome :=
  match lex "" source with
  | Outside => None
  | Stray_character => Some (Raises SyntaxError)
  | Tokens tokens =>
      match disjunction fuel tokens with
      | Parsed e [] => evaluate globals locals e
      | Parsed _ (_ :: _) => Some (Raises SyntaxError)
      | Invalid_syntax => Some (Raises SyntaxError)
      | Beyond => None
      end
  end.

End Py.

(** ** What [check_validity] returns

    [app.py] returns one of the pairs [(True, None)],
    [(False, formatted)] and [("Error: ...", None)]; [chat_bot12.py]
    returns [(True, None)], [(False, counterexample)] or the bare
    message.  They are the three verdicts of the specification, with
    the counterexample as each program reports it. *)
Inductive verdict (C : Type) : Type :=
| Tautology
| NotTautology (counterexample : C)
| Invalid (message : string).

Arguments Tautology {C}.
Arguments NotTautology {C} counterexample.
Arguments Invalid {C} message.

(** A truth assignment: the dictionary [dict(zip(props, assignment_tuple))],
    in insertion order.  The keys are one-letter strings. *)
Definition assignment : Type := list (ascii * bool).

(** The assignment as the dictionary of Python objects that [eval] reads. *)
Definition as_dict (a : assignment) : Py.dict :=
  map (fun item => (String (fst item) "", Py.VBool (snd item))) a.

(** [get_propositions], the same in both programs. *)
Definition get_propositions (expression : string) : list ascii :=
  Py.sorted (Py.set (Py.findall_AZ expression)).

(** [itertools.product([True, False], repeat=len(props))]. *)
Definition all_assignments (props : list ascii) : list (list bool) :=
  Py.product [true; false] (List.length props).

(** ** [app.py] *)
Module App.
Import Py.

(** The text that [evaluate_expression] hands to [eval]. *)
Definition rewritten (expression : string) : string :=
  let expr := replace "<->" " iff " (replace "->" " implies " expression) in
  let expr := replace "&" " and " (replace "^" " and " expr) in
  let expr := replace "v" " or " expr in
  let expr := replace "!" " not " (replace "~" " not " expr) in
  let expr := strip (sub_spaces false expr) in
  sub_not 0 expr.

Definition globals_dict : dict :=
  [("implies", VFunction "implies"); ("iff", VFunction "iff");
   ("True", VBool true); ("False", VBool false)].

(** [None]: the rewritten text is outside the modelled fragment of [eval]. *)
Definition evaluate_expression (expression : string) (a : assignment)
  : option value :=
  match eval (rewritten expression) globals_dict (as_dict a) with
  | Some (Returns result) => Some result
  | Some (Raises _) => Some (VBool false)
  | None => None
  end.

(** [", ".join([f"{p}={v}" for p, v in assignment.items()])]. *)
Definition formatted (a : assignment) : string :=
  join ", " (map (fun item => String (fst item) "" ++ "=" ++ str_bool (snd item)) a).

(** The [for] loop over the rows of the truth table. *)
Fixpoint truth_table (expression : string) (props : list ascii)
    (rows : list (list bool)) : option (verdict string) :=
  match rows with
  | [] => Some Tautology
  | assignment_tuple :: rest =>
      let a := combine props assignment_tuple in
      match evaluate_expression expression a with
      | Some result =>
          if negb (truthy result) then Some (NotTautology (formatted a))
          else truth_table expression props rest
      | None => None
      end
  end.

Definition lowercase_message : string :=
  "Error: Please use only uppercase letters (P, Q, R, etc.) for propositions.".

(** [any(c.islower() for c in expression if c.isalpha())]. *)
Definition has_lowercase (expression : string) : bool :=
  any_char (fun c => isalpha c && islower c) expression.

Definition check_validity (expression : string) : option (verdict string) :=
  if has_lowercase expression
  then Some (Invalid lowercase_message)
  else
    let props := get_propositions expression in
    match props with
    | [] =>
        if String.eqb expression "" || str_isspace expression
        then Some (Invalid "Error: Expression is empty.")
        else Some (Invalid "Error: No propositional symbols found (use uppercase letters).")
    | _ => truth_table expression props (all_assignments props)
    end.

End App.

(** ** [chat_bot12.py] *)
Module ChatBot.
Import Py.

(** Step 1 of [evaluate_expression]: the connectives become Python words. *)
Definition connectives (expression : string) : string :=
  let expr := replace "->" "implies" expression in
  let expr := replace "<->" "iff" expr in
  let expr := replace "^" "and" expr in
  let expr := replace "&" "and" expr in
  let expr := replace "v" "or" expr in
  let expr := replace "~" "not " expr in
  replace "!" "not " expr.

(** Step 3: every proposition standing alone becomes [str(value)]. *)
Definition substitute (a : assignment) (expr : string) : string :=
  fold_left (fun expr item => sub_word (fst item) (str_bool (snd item)) false expr)
            a expr.

Definition rewritten (expression : string) (a : assignment) : string :=
  substitute a (connectives expression).

Definition globals_dict : dict :=
  [("implies", VFunction "implies"); ("iff", VFunction "iff")].

Definition evaluate_expression (expression : string) (a : assignment)
  : option value :=
  match eval (rewritten expression a) globals_dict [] with
  | Some (Returns result) => Some result
  | Some (Raises _) => Some (VBool false)
  | None => None
  end.

Fixpoint item (a : assignment) (p : ascii) : option bool :=
  match a with
  | [] => None
  | (k, v) :: rest => if Ascii.eqb k p then Some v else item rest p
  end.

(** [{p: assignment[p] for p in props}]; [None] is a [KeyError]. *)
Fixpoint restricted (props : list ascii) (a : assignment) : option assignment :=
  match props with
  | [] => Some []
  | p :: rest =>
      match item a p, restricted rest a with
      | Some v, Some others => Some ((p, v) :: others)
      | _, _ => None
      end
  end.

Fixpoint truth_table (expression : string) (props : list ascii)
    (rows : list (list bool)) : option (verdict assignment) :=
  match rows with
  | [] => Some Tautology
  | assignment_tuple :: rest =>
      let a := combine props assignment_tuple in
      match evaluate_expression expression a with
      | Some result =>
          if is_False result then option_map NotTautology (restricted props a)
          else truth_table expression props rest
      | None => None
      end
  end.

Definition check_validity (expression : string) : option (verdict assignment) :=
  let props := get_propositions expression in
  let num_props := List.length props in
  if (num_props =? 0)%nat
  then Some (Invalid "Error: No propositional symbols found (use P, Q, R, etc.).")
  else truth_table expression props (all_assignments props).

End ChatBot.

(** * Properties *)

(** ** The enumeration order of [itertools.product] *)

Section Product.
Context {A : Type}.
Variable pool : list A.

Let extend (x : list A) : list (list A) := map (fun y => (x ++ [y])%list) pool.

Lemma extend_cons (y : A) (rows : list (list A)) :
  flat_map extend (map (cons y) rows) = map (cons y) (flat_map extend rows).
Proof.
  induction rows as [|x rows IH]; simpl; [reflexivity|].
  rewrite map_app, IH. f_equal.
  unfold extend. rewrite !map_map. reflexivity.
Qed.

Lemma flat_map_nested {B : Type} (f : B -> list (list A)) (l : list B) :
  flat_map extend (flat_map f l) = flat_map (fun y => flat_map extend (f y)) l.
Proof.
  induction l as [|b l IH]; simpl; [reflexivity|].
  now rewrite flat_map_app, IH.
Qed.

(** The first component is the outermost loop: the rows that start with
    the first element of the pool come first, then those that start
    with the second, and so on. *)
Lemma product_outermost (n : nat) :
  Py.product pool (S n) = flat_map (fun y => map (cons y) (Py.product pool n)) pool.
Proof.
  induction n as [|n IH].
  - simpl. rewrite app_nil_r.
    induction pool as [|y ys IHp]; simpl; [reflexivity|now rewrite IHp].
  - change (Py.product pool (S (S n))) with (flat_map extend (Py.product pool (S n))).
    rewrite IH at 1. rewrite flat_map_nested.
    apply flat_map_ext. intros y. rewrite extend_cons. reflexivity.
Qed.

End Product.

Lemma rows_outermost (n : nat) :
  Py.product [true; false] (S n) =
  (map (cons true) (Py.product [true; false] n)
   ++ map (cons false) (Py.product [true; false] n))%list.
Proof. rewrite product_outermost. simpl. now rewrite app_nil_r. Qed.

Lemma rows_length (n : nat) : List.length (Py.product [true; false] n) = 2 ^ n.
Proof.
  induction n as [|n IH]; [reflexivity|].
  rewrite rows_outermost, length_app, !length_map, IH. simpl. lia.
Qed.

Lemma rows_complete (n : nat) (row : list bool) :
  In row (Py.product [true; false] n) <-> List.length row = n.
Proof.
  revert row. induction n as [|n IH]; intros row.
  - simpl. split.
    + intros [<-|[]]. reflexivity.
    + destruct row; [now left|discriminate].
  - rewrite rows_outermost, in_app_iff, !in_map_iff. split.
    + intros [[r [<- Hr]]|[r [<- Hr]]]; simpl; f_equal; now apply IH.
    + destruct row as [|[] r]; [discriminate| |]; simpl; intros [= Hr];
        [left|right]; exists r; (split; [reflexivity|now apply IH]).
Qed.

Lemma rows_first (n : nat) :
  exists later, Py.product [true; false] n = repeat true n :: later.
Proof.
  induction n as [|n [later IH]].
  - now exists [].
  - rewrite rows_outermost, IH. simpl. eexists. reflexivity.
Qed.

(** ** The propositions of an expression *)

Definition before (p q : ascii) : Prop := (Py.code p < Py.code q)%N.

Lemma code_inj (p q : ascii) : Py.code p = Py.code q -> p = q.
Proof.
  unfold Py.code. intros H.
  rewrite <- (ascii_N_embedding p), <- (ascii_N_embedding q). now rewrite H.
Qed.

Lemma insert_In (x y : ascii) (l : list ascii) :
  In y (Py.insert x l) <-> y = x \/ In y l.
Proof.
  induction l as [|z l IH]; simpl.
  - intuition.
  - destruct (Py.code x <=? Py.code z)%N; simpl; rewrite ?IH; intuition.
Qed.

Lemma sorted_In (y : ascii) (l : list ascii) : In y (Py.sorted l) <-> In y l.
Proof.
  induction l as [|x l IH]; simpl; [reflexivity|].
  rewrite insert_In, IH. intuition.
Qed.

Lemma insert_sorted (x : ascii) (l : list ascii) :
  Sorted before l -> ~ In x l -> Sorted before (Py.insert x l).
Proof.
  induction 1 as [|z l Hl IH Hz]; intros Hx; simpl.
  - repeat constructor.
  - destruct (Py.code x <=? Py.code z)%N eqn:E.
    + apply N.leb_le in E. repeat constructor; trivial.
      unfold before. destruct (N.eq_dec (Py.code x) (Py.code z)) as [Heq|Hne].
      * exfalso. apply Hx. left. symmetry. now apply code_inj.
      * lia.
    + apply N.leb_gt in E. constructor.
      * apply IH. intros Hin. apply Hx. now right.
      * destruct Hz as [|w l' Hw]; simpl.
        -- now constructor.
        -- destruct (Py.code x <=? Py.code w)%N; now constructor.
Qed.

Lemma sorted_Sorted (l : list ascii) : NoDup l -> Sorted before (Py.sorted l).
Proof.
  induction 1 as [|x l Hx Hl IH]; simpl; [constructor|].
  apply insert_sorted; trivial. now rewrite sorted_In.
Qed.

Lemma findall_In (p : ascii) (s : string) :
  In p (Py.findall_AZ s) -> Py.is_AZ p = true.
Proof.
  induction s as [|c s IH]; simpl; [tauto|].
  destruct (Py.is_AZ c) eqn:E; simpl; [intros [<-|H]|]; auto.
Qed.

Lemma findall_nil (s : string) :
  Py.findall_AZ s = [] <-> Py.any_char Py.is_AZ s = false.
Proof.
  induction s as [|c s IH]; simpl; [tauto|].
  destruct (Py.is_AZ c); simpl; [split; discriminate|exact IH].
Qed.

Lemma propositions_sorted (expression : string) :
  StronglySorted before (get_propositions expression).
Proof.
  apply Sorted_StronglySorted.
  - intros a b c. unfold before. lia.
  - apply sorted_Sorted, NoDup_nodup.
Qed.

Lemma propositions_In (expression : string) (p : ascii) :
  In p (get_propositions expression) <-> In p (Py.findall_AZ expression).
Proof. unfold get_propositions, Py.set. now rewrite sorted_In, nodup_In. Qed.

Lemma propositions_NoDup (expression : string) : NoDup (get_propositions expression).
Proof.
  assert (H := propositions_sorted expression).
  induction H as [|p l Hl IH Hp]; constructor; trivial.
  intros Hin. rewrite Forall_forall in Hp. specialize (Hp p Hin).
  unfold before in Hp. lia.
Qed.

Lemma propositions_nil (expression : string) :
  get_propositions expression = [] <-> Py.any_char Py.is_AZ expression = false.
Proof.
  rewrite <- findall_nil. split; intros H.
  - destruct (Py.findall_AZ expression) as [|p l] eqn:E; [reflexivity|].
    assert (Hin : In p (get_propositions expression))
      by (apply propositions_In; rewrite E; now left).
    rewrite H in Hin. destruct Hin.
  - destruct (get_propositions expression) as [|p l] eqn:E; [reflexivity|].
    assert (Hin : In p (Py.findall_AZ expression))
      by (apply propositions_In; rewrite E; now left).
    rewrite H in Hin. destruct Hin.
Qed.

(** ** The loop over the truth table *)

Section Table.
Context {C : Type}.

(** What one round of the loop does with a row: [None] when the
    evaluation gives nothing, [Some None] when the loop goes on,
    [Some (Some c)] when it returns the counterexample [c]. *)
Variable judge : list bool -> option (option C).

Fixpoint table (rows : list (list bool)) : option (verdict C) :=
  match rows with
  | [] => Some Tautology
  | row :: rest =>
      match judge row with
      | Some (Some c) => Some (NotTautology c)
      | Some None => table rest
      | None => None
      end
  end.

Lemma table_NotTautology (rows : list (list bool)) (c : C) :
  table rows = Some (NotTautology c) <->
  exists earlier row later,
    rows = (earlier ++ row :: later)%list
    /\ Forall (fun r => judge r = Some None) earlier
    /\ judge row = Some (Some c).
Proof.
  induction rows as [|r rows IH]; simpl.
  - split; [discriminate|].
    intros (earlier & row & later & H & _). now destruct earlier.
  - destruct (judge r) as [[c'|]|] eqn:E.
    + split.
      * intros [= ->]. exists [], r, rows. auto.
      * intros ([|r' earlier] & row & later & H & Hall & Hrow); injection H as -> ->.
        -- congruence.
        -- inversion Hall; congruence.
    + rewrite IH. split.
      * intros (earlier & row & later & -> & Hall & Hrow).
        exists (r :: earlier), row, later. auto.
      * intros ([|r' earlier] & row & later & H & Hall & Hrow); injection H as -> ->.
        -- congruence.
        -- exists earlier, row, later. inversion Hall; auto.
    + split; [discriminate|].
      intros ([|r' earlier] & row & later & H & Hall & Hrow); injection H as -> ->.
      * congruence.
      * inversion Hall; congruence.
Qed.

Lemma table_Tautology (rows : list (list bool)) :
  table rows = Some Tautology <-> Forall (fun r => judge r = Some None) rows.
Proof.
  induction rows as [|r rows IH]; simpl.
  - split; auto.
  - destruct (judge r) as [[c'|]|] eqn:E.
    + split; [discriminate|]. inversion 1; congruence.
    + rewrite IH. split; [auto|now inversion 1].
    + split; [discriminate|]. inversion 1; congruence.
Qed.

Lemma table_total (rows : list (list bool)) :
  Forall (fun r => judge r <> None) rows -> table rows <> None.
Proof.
  induction 1 as [|r rows Hr _ IH]; simpl; [discriminate|].
  destruct (judge r) as [[c'|]|]; [discriminate|exact IH|contradiction].
Qed.

End Table.

(** [row] is the first row of [rows] that [falsifies]: every row before
    it [passes]. *)
Definition first_row (passes falsifies : list bool -> Prop)
    (rows : list (list bool)) (row : list bool) : Prop :=
  exists earlier later,
    rows = (earlier ++ row :: later)%list /\ Forall passes earlier /\ falsifies row.

Module AppFacts.
Import Py App.

(** The loop goes on after [row]: the result is true in Python's sense. *)
Definition passes (expression : string) (props : list ascii) (row : list bool) : Prop :=
  exists result,
    evaluate_expression expression (combine props row) = Some result
    /\ truthy result = true.

(** The loop stops at [row]: [not result] holds. *)
Definition falsifies (expression : string) (props : list ascii) (row : list bool) : Prop :=
  exists result,
    evaluate_expression expression (combine props row) = Some result
    /\ truthy result = false.

Definition judge (expression : string) (props : list ascii) (row : list bool)
  : option (option string) :=
  match evaluate_expression expression (combine props row) with
  | Some result =>
      Some (if negb (truthy result) then Some (formatted (combine props row)) else None)
  | None => None
  end.

Lemma app_truth_table_table expression props rows :
  truth_table expression props rows = table (judge expression props) rows.
Proof.
  induction rows as [|row rows IH]; simpl; [reflexivity|].
  unfold judge. destruct (evaluate_expression _ _) as [result|]; [|reflexivity].
  destruct (truthy result); simpl; [exact IH|reflexivity].
Qed.

Lemma app_judge_passes expression props row :
  judge expression props row = Some None <-> passes expression props row.
Proof.
  unfold judge, passes. destruct (evaluate_expression _ _) as [result|].
  - destruct (truthy result) eqn:E; simpl; split.
    + intros _. eauto.
    + reflexivity.
    + discriminate.
    + intros (r & [= <-] & H). congruence.
  - split; [discriminate|]. now intros (r & H & _).
Qed.

Lemma app_judge_falsifies expression props row c :
  judge expression props row = Some (Some c) <->
  falsifies expression props row /\ c = formatted (combine props row).
Proof.
  unfold judge, falsifies. destruct (evaluate_expression _ _) as [result|].
  - destruct (truthy result) eqn:E; simpl; split.
    + discriminate.
    + intros [(r & [= <-] & H) _]. congruence.
    + intros [= <-]. eauto.
    + intros [_ ->]. reflexivity.
  - split; [discriminate|]. now intros [(r & H & _) _].
Qed.

Lemma app_truth_table_NotTautology expression props rows c :
  truth_table expression props rows = Some (NotTautology c) <->
  exists row,
    first_row (passes expression props) (falsifies expression props) rows row
    /\ c = formatted (combine props row).
Proof.
  rewrite app_truth_table_table, table_NotTautology. split.
  - intros (earlier & row & later & -> & Hall & Hrow).
    apply app_judge_falsifies in Hrow as [Hrow ->].
    exists row. split; [|reflexivity]. exists earlier, later.
    repeat split; trivial.
    eapply Forall_impl; [|exact Hall]. intros r. apply app_judge_passes.
  - intros (row & (earlier & later & -> & Hall & Hrow) & ->).
    exists earlier, row, later. repeat split.
    + eapply Forall_impl; [|exact Hall]. intros r. apply app_judge_passes.
    + now apply app_judge_falsifies.
Qed.

Lemma app_truth_table_Tautology expression props rows :
  truth_table expression props rows = Some Tautology <->
  Forall (passes expression props) rows.
Proof.
  rewrite app_truth_table_table, table_Tautology.
  split; apply Forall_impl; intros r; apply app_judge_passes.
Qed.

End AppFacts.

Module ChatBotFacts.
Import Py ChatBot.

(** The loop goes on after [row]: the result is not the object [False]. *)
Definition passes (expression : string) (props : list ascii) (row : list bool) : Prop :=
  exists result,
    evaluate_expression expression (combine props row) = Some result
    /\ is_False result = false.

(** The loop stops at [row]: [result is False]. *)
Definition falsifies (expression : string) (props : list ascii) (row : list bool) : Prop :=
  exists result,
    evaluate_expression expression (combine props row) = Some result
    /\ is_False result = true.

Definition judge (expression : string) (props : list ascii) (row : list bool)
  : option (option assignment) :=
  match evaluate_expression expression (combine props row) with
  | Some result =>
      if is_False result then option_map Some (restricted props (combine props row))
      else Some None
  | None => None
  end.

Lemma chat_truth_table_table expression props rows :
  truth_table expression props rows = table (judge expression props) rows.
Proof.
  induction rows as [|row rows IH]; simpl; [reflexivity|].
  unfold judge. destruct (evaluate_expression _ _) as [result|]; [|reflexivity].
  destruct (is_False result); [|exact IH].
  now destruct (restricted _ _).
Qed.

Lemma item_other (a : assignment) (p q : ascii) (v : bool) :
  p <> q -> item ((p, v) :: a) q = item a q.
Proof.
  intros H. simpl. destruct (Ascii.eqb_spec p q); [contradiction|reflexivity].
Qed.

Lemma restricted_other (props : list ascii) (a : assignment) (p : ascii) (v : bool) :
  ~ In p props -> restricted props ((p, v) :: a) = restricted props a.
Proof.
  induction props as [|q props IH]; intros Hp; [reflexivity|].
  cbn [restricted]. rewrite item_other, IH; [reflexivity| |].
  - intros H. apply Hp. now right.
  - intros ->. apply Hp. now left.
Qed.

(** The comprehension never meets a missing key: it rebuilds the
    dictionary it reads. *)
Lemma restricted_combine (props : list ascii) (row : list bool) :
  NoDup props -> List.length row = List.length props ->
  restricted props (combine props row) = Some (combine props row).
Proof.
  intros Hnd. revert row.
  induction Hnd as [|p props Hp Hnd IH]; intros row Hlen; [reflexivity|].
  destruct row as [|v row]; [discriminate|]. injection Hlen as Hlen.
  cbn [combine restricted item]. rewrite Ascii.eqb_refl.
  rewrite restricted_other by exact Hp. now rewrite IH.
Qed.

Lemma chat_judge_passes expression props row :
  judge expression props row = Some None <-> passes expression props row.
Proof.
  unfold judge, passes. destruct (evaluate_expression _ _) as [result|].
  - destruct (is_False result) eqn:E; split.
    + destruct (restricted _ _); discriminate.
    + intros (r & [= <-] & H). congruence.
    + intros _. eauto.
    + reflexivity.
  - split; [discriminate|]. now intros (r & H & _).
Qed.

Lemma chat_judge_falsifies expression props row c :
  NoDup props -> List.length row = List.length props ->
  judge expression props row = Some (Some c) <->
  falsifies expression props row /\ c = combine props row.
Proof.
  intros Hnd Hlen. unfold judge, falsifies.
  rewrite restricted_combine by assumption.
  destruct (evaluate_expression _ _) as [result|].
  - destruct (is_False result) eqn:E; simpl; split.
    + intros [= <-]. eauto.
    + intros [_ ->]. reflexivity.
    + discriminate.
    + intros [(r & [= <-] & H) _]. congruence.
  - split; [discriminate|]. now intros [(r & H & _) _].
Qed.

Lemma chat_truth_table_NotTautology expression props rows c :
  NoDup props ->
  (forall row, In row rows -> List.length row = List.length props) ->
  truth_table expression props rows = Some (NotTautology c) <->
  exists row,
    first_row (passes expression props) (falsifies expression props) rows row
    /\ c = combine props row.
Proof.
  intros Hnd Hlen. rewrite chat_truth_table_table, table_NotTautology. split.
  - intros (earlier & row & later & -> & Hall & Hrow).
    apply chat_judge_falsifies in Hrow as [Hrow ->];
      [|assumption|apply Hlen, in_elt].
    exists row. split; [|reflexivity]. exists earlier, later.
    repeat split; trivial.
    eapply Forall_impl; [|exact Hall]. intros r. apply chat_judge_passes.
  - intros (row & (earlier & later & -> & Hall & Hrow) & ->).
    exists earlier, row, later. repeat split.
    + eapply Forall_impl; [|exact Hall]. intros r. apply chat_judge_passes.
    + apply chat_judge_falsifies; [assumption|apply Hlen, in_elt|auto].
Qed.

Lemma chat_truth_table_Tautology expression props rows :
  truth_table expression props rows = Some Tautology <->
  Forall (passes expression props) rows.
Proof.
  rewrite chat_truth_table_table, table_Tautology.
  split; apply Forall_impl; intros r; apply chat_judge_passes.
Qed.

End ChatBotFacts.

(** ** White space, letters and the first row *)

Lemma isspace_not_letter (c : ascii) :
  Py.isspace c = true ->
  Py.is_AZ c = false /\ (Py.isalpha c && Py.islower c = false).
Proof.
  destruct c as [[] [] [] [] [] [] [] []]; vm_compute; intros H;
    first [discriminate H | split; reflexivity].
Qed.

Lemma blank_no_letter (s : string) :
  Py.all_chars Py.isspace s = true ->
  Py.any_char Py.is_AZ s = false /\ App.has_lowercase s = false.
Proof.
  unfold App.has_lowercase.
  induction s as [|c s IH]; simpl; [auto|].
  intros H. apply andb_prop in H as [Hc Hs].
  destruct (isspace_not_letter c Hc) as [-> ->].
  now apply IH.
Qed.

(** The assignment of the first row: every proposition is true. *)
Definition all_true (expression : string) : assignment :=
  let props := get_propositions expression in
  combine props (repeat true (List.length props)).

Lemma app_first_row_raises (expression : string) (e : Py.exn) :
  App.has_lowercase expression = false ->
  Py.any_char Py.is_AZ expression = true ->
  Py.eval (App.rewritten expression) App.globals_dict (as_dict (all_true expression))
    = Some (Py.Raises e) ->
  App.check_validity expression
    = Some (NotTautology (App.formatted (all_true expression))).
Proof.
  intros Hlow Hup Hraise. unfold App.check_validity. rewrite Hlow.
  destruct (get_propositions expression) as [|p props] eqn:E.
  - apply propositions_nil in E. congruence.
  - rewrite <- E. unfold all_assignments.
    destruct (rows_first (List.length (get_propositions expression))) as [later ->].
    cbn [App.truth_table]. unfold App.evaluate_expression.
    fold (all_true expression). rewrite Hraise. reflexivity.
Qed.

Lemma chat_first_row_raises (expression : string) (e : Py.exn) :
  Py.any_char Py.is_AZ expression = true ->
  Py.eval (ChatBot.rewritten expression (all_true expression)) ChatBot.globals_dict []
    = Some (Py.Raises e) ->
  ChatBot.check_validity expression = Some (NotTautology (all_true expression)).
Proof.
  intros Hup Hraise. unfold ChatBot.check_validity.
  destruct (get_propositions expression) as [|p props] eqn:E.
  - apply propositions_nil in E. congruence.
  - rewrite <- E.
    replace (List.length (get_propositions expression) =? 0)%nat with false
      by (rewrite E; reflexivity).
    unfold all_assignments.
    destruct (rows_first (List.length (get_propositions expression))) as [later ->].
    cbn [ChatBot.truth_table]. unfold ChatBot.evaluate_expression.
    fold (all_true expression). rewrite Hraise. cbn [Py.is_False].
    unfold all_true.
    rewrite ChatBotFacts.restricted_combine;
      [reflexivity|apply propositions_NoDup|apply repeat_length].
Qed.

(** ** The two arrows

    [evaluate_expression] replaces [->] before [<->].  Once [->] is
    replaced by a word, no [->] is left in the text, so the second
    replacement finds nothing. *)

(** [sub in s]. *)
Fixpoint occurs (sub s : string) : bool :=
  match s with
  | EmptyString => prefix sub EmptyString
  | String _ rest => prefix sub s || occurs sub rest
  end.

Definition starts_with (c : ascii) (s : string) : bool :=
  match s with
  | EmptyString => false
  | String d _ => Ascii.eqb d c
  end.

(** A replacement text that cannot form an arrow: it is not empty and
    has neither a dash nor a greater-than sign. *)
Definition arrowless (new : string) : bool :=
  match new with
  | EmptyString => false
  | _ => negb (Py.any_char (fun c => Ascii.eqb c "-" || Ascii.eqb c ">") new)
  end.

Lemma prefix_cons (a b : ascii) (s1 s2 : string) :
  prefix (String a s1) (String b s2) = Ascii.eqb b a && prefix s1 s2.
Proof.
  cbn [prefix]. destruct (ascii_dec a b) as [->|H].
  - now rewrite Ascii.eqb_refl.
  - destruct (Ascii.eqb_spec b a); [congruence|reflexivity].
Qed.

Lemma prefix_empty (s : string) : prefix "" s = true.
Proof. now destruct s. Qed.

Lemma prefix_arrow (c : ascii) (s : string) :
  prefix "->" (String c s) = Ascii.eqb c "-" && starts_with ">" s.
Proof.
  rewrite prefix_cons. f_equal.
  destruct s as [|d s]; [reflexivity|].
  now rewrite prefix_cons, prefix_empty, andb_true_r.
Qed.

Lemma scan_arrow (new : string) (c : ascii) (s : string) :
  Py.replace_scan "->" new 0 (String c s) =
  if Ascii.eqb c "-" && starts_with ">" s
  then new ++ Py.replace_scan "->" new 0 (Py.drop 1 s)
  else String c (Py.replace_scan "->" new 0 s).
Proof.
  cbn [Py.replace_scan]. rewrite prefix_arrow.
  destruct (Ascii.eqb c "-" && starts_with ">" s) eqn:E; [|reflexivity].
  apply andb_prop in E as [_ E]. destruct s as [|d s]; [discriminate|reflexivity].
Qed.

Lemma occurs_after (new rest : string) :
  Py.any_char (fun c => Ascii.eqb c "-" || Ascii.eqb c ">") new = false ->
  occurs "->" (new ++ rest) = occurs "->" rest.
Proof.
  induction new as [|c new IH]; simpl append; [reflexivity|].
  cbn [Py.any_char]. intros H. apply orb_false_elim in H as [Hc Hnew].
  apply orb_false_elim in Hc as [Hc _].
  cbn [occurs]. rewrite prefix_arrow, Hc. simpl. now apply IH.
Qed.

Lemma starts_after (new rest : string) :
  arrowless new = true -> starts_with ">" (new ++ rest) = false.
Proof.
  destruct new as [|c new]; [discriminate|]. unfold arrowless. cbn [Py.any_char].
  intros H. apply negb_true_iff, orb_false_elim in H as [Hc _].
  apply orb_false_elim in Hc as [_ Hc]. exact Hc.
Qed.

(** What the scan leaves: no arrow, and a leading [>] only where the
    text had one. *)
Definition arrow_free_scan (new s : string) : Prop :=
  occurs "->" (Py.replace_scan "->" new 0 s) = false
  /\ (starts_with ">" (Py.replace_scan "->" new 0 s) = true ->
      starts_with ">" s = true).

Lemma scan_arrow_free (new : string) :
  arrowless new = true ->
  forall s, arrow_free_scan new s /\ forall c, arrow_free_scan new (String c s).
Proof.
  intros Hnew.
  assert (Hclean : Py.any_char (fun c => Ascii.eqb c "-" || Ascii.eqb c ">") new = false).
  { destruct new; [discriminate|]. now apply negb_true_iff in Hnew. }
  assert (Hone : forall c s, arrow_free_scan new s ->
                 arrow_free_scan new (Py.drop 1 s) ->
                 arrow_free_scan new (String c s)).
  { intros c s [Hocc Hhead] [Hocc' _]. unfold arrow_free_scan.
    rewrite scan_arrow.
    destruct (Ascii.eqb c "-" && starts_with ">" s) eqn:E.
    - rewrite occurs_after, starts_after by assumption. split; [assumption|discriminate].
    - split.
      + cbn [occurs]. rewrite prefix_arrow, Hocc, orb_false_r.
        destruct (Ascii.eqb c "-"); [|reflexivity]. simpl in E |- *.
        destruct (starts_with ">" (Py.replace_scan "->" new 0 s)) eqn:F; [|reflexivity].
        rewrite Hhead in E by reflexivity. discriminate.
      + simpl. trivial. }
  induction s as [|d s [IHs IHc]].
  - assert (H0 : arrow_free_scan new "") by (split; [reflexivity|discriminate]).
    split; [exact H0|]. intros c. now apply Hone.
  - split; [apply IHc|]. intros c. apply Hone; [apply IHc|exact IHs].
Qed.

Lemma scan_absent (new s : string) :
  occurs "->" s = false -> Py.replace_scan "<->" new 0 s = s.
Proof.
  induction s as [|c s IH]; [reflexivity|].
  cbn [occurs]. intros H. apply orb_false_elim in H as [_ Hs].
  cbn [Py.replace_scan].
  replace (prefix "<->" (String c s)) with false; [now rewrite IH|].
  rewrite prefix_cons. destruct s as [|d s]; [now rewrite andb_false_r|].
  cbn [occurs] in Hs. apply orb_false_elim in Hs as [Hs _].
  now rewrite Hs, andb_false_r.
Qed.

(** After [->] is replaced, replacing [<->] changes nothing. *)
Lemma biconditional_unreachable (new new' s : string) :
  arrowless new = true ->
  Py.replace "<->" new' (Py.replace "->" new s) = Py.replace "->" new s.
Proof.
  intros Hnew. unfold Py.replace. apply scan_absent.
  now destruct (scan_arrow_free new Hnew s) as [[H _] _].
Qed.

Lemma rows_NoDup (n : nat) : NoDup (Py.product [true; false] n).
Proof.
  induction n as [|n IH]; [repeat constructor; auto|].
  rewrite rows_outermost. apply NoDup_app.
  - apply Injective_map_NoDup; [|exact IH]. intros x y [= H]. exact H.
  - apply Injective_map_NoDup; [|exact IH]. intros x y [= H]. exact H.
  - intros row H1 H2. apply in_map_iff in H1 as (r1 & <- & _).
    apply in_map_iff in H2 as (r2 & [= _] & _).
Qed.

(** * The claims *)

Ltac run := vm_compute; reflexivity.

(** C1.  The specification expects [check("(P ^ Q) -> Q")] to be
    [Tautology].  Both programs turn the arrow into the word [implies]
    between its operands, [eval] rejects that text with a syntax error
    on the first row, and the verdict is [NotTautology] with
    [P=True, Q=True]. *)
Theorem conjunction_elimination_verdict :
  App.rewritten "(P ^ Q) -> Q" = "(P and Q) implies Q"
  /\ Py.eval "(P and Q) implies Q" App.globals_dict
       (as_dict [("P"%char, true); ("Q"%char, true)]) = Some (Py.Raises Py.SyntaxError)
  /\ App.check_validity "(P ^ Q) -> Q" = Some (NotTautology "P=True, Q=True")
  /\ ChatBot.rewritten "(P ^ Q) -> Q" [("P"%char, true); ("Q"%char, true)]
     = "(True and True) implies True"
  /\ ChatBot.check_validity "(P ^ Q) -> Q"
     = Some (NotTautology [("P"%char, true); ("Q"%char, true)]).
Proof. repeat apply conj; run. Qed.

(** C3.  The specification expects [check("P v ~P")] to be [Tautology],
    with the letter [v] exempt from the lowercase rule.
    [chat_bot12.py] returns [Tautology]; [app.py] applies its lowercase
    rule to the [v] as well and returns the lowercase error, so the
    replacement of [v] by [or] in its [evaluate_expression] is never
    reached from [check_validity]. *)
Theorem excluded_middle_verdict :
  App.has_lowercase "P v ~P" = true
  /\ App.check_validity "P v ~P" = Some (Invalid App.lowercase_message)
  /\ App.evaluate_expression "P v ~P" [("P"%char, true)] = Some (Py.VBool true)
  /\ App.evaluate_expression "P v ~P" [("P"%char, false)] = Some (Py.VBool true)
  /\ ChatBot.check_validity "P v ~P" = Some Tautology.
Proof. repeat apply conj; run. Qed.

(** C4.  The specification expects [check("P -> Q")] to be
    [NotTautology] with the counterexample [P=True, Q=False].  Both
    programs stop at the first row, where [eval] rejects the text
    [P implies Q], and report [P=True, Q=True]. *)
Theorem implication_counterexample :
  App.rewritten "P -> Q" = "P implies Q"
  /\ App.check_validity "P -> Q" = Some (NotTautology "P=True, Q=True")
  /\ ChatBot.rewritten "P -> Q" [("P"%char, true); ("Q"%char, true)] = "True implies True"
  /\ ChatBot.check_validity "P -> Q" = Some (NotTautology [("P"%char, true); ("Q"%char, true)]).
Proof. repeat apply conj; run. Qed.

(** C5.  The specification expects [<->] to be taken as one operator
    with the meaning of [iff].  Both programs replace [->] first, so
    that on every input the replacement of [<->] finds nothing; in
    [P <-> P] the arrow is cut into [<] and [implies], [eval] rejects
    the text, and the verdict is [NotTautology] with [P=True]. *)
Theorem biconditional_verdict :
  (forall s, Py.replace "<->" " iff " (Py.replace "->" " implies " s)
             = Py.replace "->" " implies " s)
  /\ (forall s, Py.replace "<->" "iff" (Py.replace "->" "implies" s)
                = Py.replace "->" "implies" s)
  /\ App.rewritten "P <-> P" = "P < implies P"
  /\ App.check_validity "P <-> P" = Some (NotTautology "P=True")
  /\ ChatBot.rewritten "P <-> P" [("P"%char, true)] = "True <implies True"
  /\ ChatBot.check_validity "P <-> P" = Some (NotTautology [("P"%char, true)]).
Proof.
  repeat apply conj; try run.
  - intros s. now apply biconditional_unreachable.
  - intros s. now apply biconditional_unreachable.
Qed.

(** Where every row evaluates, the verdicts are those of the truth
    table: the first row passes here and the second is reported. *)
Example second_row_reported :
  App.check_validity "~(P ^ ~Q)" = Some (NotTautology "P=True, Q=False")
  /\ ChatBot.check_validity "~(P ^ ~Q)"
     = Some (NotTautology [("P"%char, true); ("Q"%char, false)])
  /\ App.check_validity "~(P ^ ~P)" = Some Tautology
  /\ ChatBot.check_validity "~(P & !P)" = Some Tautology.
Proof. repeat apply conj; run. Qed.

(** C7.  [check("P ^ ~P")] is [NotTautology] with the counterexample
    [P=True]: the row tried first. *)
Theorem contradiction_counterexample :
  App.check_validity "P ^ ~P" = Some (NotTautology "P=True")
  /\ ChatBot.check_validity "P ^ ~P" = Some (NotTautology [("P"%char, true)]).
Proof. split; run. Qed.

(** C8.  On the empty string and on a string of white space only, both
    programs return an [Invalid] verdict. *)
Theorem blank_is_invalid (expression : string) :
  Py.all_chars Py.isspace expression = true ->
  App.check_validity expression = Some (Invalid "Error: Expression is empty.")
  /\ ChatBot.check_validity expression
     = Some (Invalid "Error: No propositional symbols found (use P, Q, R, etc.).").
Proof.
  intros H. destruct (blank_no_letter expression H) as [Hup Hlow].
  apply propositions_nil in Hup.
  unfold App.check_validity, ChatBot.check_validity. rewrite Hlow, Hup. split.
  - destruct expression as [|c rest]; [reflexivity|].
    unfold Py.str_isspace. now rewrite H, orb_true_r.
  - reflexivity.
Qed.

(** The empty string and three spaces. *)
Lemma blank_is_invalid_witness :
  (App.check_validity "" = Some (Invalid "Error: Expression is empty.")
   /\ ChatBot.check_validity ""
      = Some (Invalid "Error: No propositional symbols found (use P, Q, R, etc.)."))
  /\ (App.check_validity "   " = Some (Invalid "Error: Expression is empty.")
      /\ ChatBot.check_validity "   "
         = Some (Invalid "Error: No propositional symbols found (use P, Q, R, etc.).")).
Proof.
  split.
  - apply (blank_is_invalid ""). reflexivity.
  - apply (blank_is_invalid "   "). reflexivity.
Defined.

(** The enumeration is fixed: the propositions are in increasing
    order, the rows are those of [itertools.product] (first proposition
    outermost, [True] before [False], all [2^n] rows, each once).  The
    loop stops at the first row for which [evaluate_expression] returns
    a false result, whatever made it false, an exception included; it
    runs through all [2^n] rows otherwise. *)
Lemma loop_stops_at_first_false_result (expression : string) :
  let props := get_propositions expression in
  let rows := all_assignments props in
  StronglySorted before props
  /\ (forall n,
        Py.product [true; false] (S n)
        = (map (cons true) (Py.product [true; false] n)
           ++ map (cons false) (Py.product [true; false] n))%list)
  /\ List.length rows = 2 ^ List.length props
  /\ NoDup rows
  /\ (forall row, In row rows <-> List.length row = List.length props)
  /\ (forall c,
        App.check_validity expression = Some (NotTautology c) <->
        App.has_lowercase expression = false /\ props <> [] /\
        exists row,
          first_row (AppFacts.passes expression props)
                    (AppFacts.falsifies expression props) rows row
          /\ c = App.formatted (combine props row))
  /\ (App.check_validity expression = Some Tautology <->
        App.has_lowercase expression = false /\ props <> [] /\
        Forall (AppFacts.passes expression props) rows)
  /\ (forall c,
        ChatBot.check_validity expression = Some (NotTautology c) <->
        props <> [] /\
        exists row,
          first_row (ChatBotFacts.passes expression props)
                    (ChatBotFacts.falsifies expression props) rows row
          /\ c = combine props row)
  /\ (ChatBot.check_validity expression = Some Tautology <->
        props <> [] /\ Forall (ChatBotFacts.passes expression props) rows).
Proof.
  intros props rows.
  assert (Hlen : forall row, In row rows <-> List.length row = List.length props)
    by apply rows_complete.
  repeat match goal with |- _ /\ _ => split end.
  - apply propositions_sorted.
  - apply rows_outermost.
  - apply rows_length.
  - apply rows_NoDup.
  - exact Hlen.
  - intros c. unfold App.check_validity. fold props.
    destruct (App.has_lowercase expression).
    { split; [discriminate|]. now intros [H _]. }
    destruct props as [|p ps] eqn:E.
    { split; [destruct (_ || _); discriminate|]. now intros (_ & H & _). }
    fold rows. rewrite AppFacts.app_truth_table_NotTautology.
    split; [intros Hrow; split; [reflexivity|split; [discriminate|exact Hrow]]
          |now intros (_ & _ & Hrow)].
  - unfold App.check_validity. fold props.
    destruct (App.has_lowercase expression).
    { split; [discriminate|]. now intros [H _]. }
    destruct props as [|p ps] eqn:E.
    { split; [destruct (_ || _); discriminate|]. now intros (_ & H & _). }
    fold rows. rewrite AppFacts.app_truth_table_Tautology.
    split; [intros Hrow; split; [reflexivity|split; [discriminate|exact Hrow]]
          |now intros (_ & _ & Hrow)].
  - intros c. unfold ChatBot.check_validity. fold props.
    destruct props as [|p ps] eqn:E.
    { split; [discriminate|]. now intros [H _]. }
    cbn [List.length Nat.eqb]. fold rows.
    rewrite ChatBotFacts.chat_truth_table_NotTautology.
    + split; [intros Hrow; split; [discriminate|exact Hrow]|now intros [_ Hrow]].
    + rewrite <- E. apply propositions_NoDup.
    + intros row. apply Hlen.
  - unfold ChatBot.check_validity. fold props.
    destruct props as [|p ps] eqn:E.
    { split; [discriminate|]. now intros [H _]. }
    cbn [List.length Nat.eqb]. fold rows.
    rewrite ChatBotFacts.chat_truth_table_Tautology.
    split; [intros Hrow; split; [discriminate|exact Hrow]|now intros [_ Hrow]].
Qed.

(** [def implies(a, b): return (not a) or b], on truth values: the
    meaning that both programs give to [->]. *)
Definition implies (a b : bool) : bool := negb a || b.

(** The value of [P -> Q] on a row of its truth table. *)
Definition implication_row (row : list bool) : bool :=
  implies (nth 0 row false) (nth 1 row false).

(** C6.  The specification expects the reported counterexample to be
    the first row, in the order of the table, at which the formula is
    false.  The order is the specified one: [P] before [Q], [P]
    outermost, [True] before [False].  But for [P -> Q] the first row
    at which the implication is false is [P=True, Q=False], the second
    one, and both programs report the first, [P=True, Q=True], at which
    the implication is true. *)
Theorem first_falsifying_row_missed :
  get_propositions "P -> Q" = ["P"; "Q"]%char
  /\ all_assignments ["P"; "Q"]%char
     = [[true; true]; [true; false]; [false; true]; [false; false]]
  /\ implication_row [true; true] = true
  /\ find (fun row => negb (implication_row row))
          (all_assignments (get_propositions "P -> Q"))
     = Some [true; false]
  /\ App.check_validity "P -> Q"
     = Some (NotTautology (App.formatted (combine ["P"; "Q"]%char [true; true])))
  /\ ChatBot.check_validity "P -> Q"
     = Some (NotTautology (combine ["P"; "Q"]%char [true; true])).
Proof. repeat apply conj; run. Qed.




(** * Further properties of the two checkers *)

(** ** The propositions found in an expression *)

Definition alphabet : list ascii :=
  list_ascii_of_string "ABCDEFGHIJKLMNOPQRSTUVWXYZ".

Lemma AZ_in_alphabet (p : ascii) :
  Py.is_AZ p = true -> existsb (Ascii.eqb p) alphabet = true.
Proof.
  destruct p as [[] [] [] [] [] [] [] []]; vm_compute; intros H;
    first [exact H | reflexivity].
Qed.

Lemma findall_exact (p : ascii) (s : string) :
  In p (Py.findall_AZ s) <->
  Py.is_AZ p = true /\ Py.any_char (Ascii.eqb p) s = true.
Proof.
  induction s as [|c s IH]; simpl.
  - split; [tauto|]. now intros [_ H].
  - destruct (Ascii.eqb_spec p c) as [<-|Hne].
    + destruct (Py.is_AZ p) eqn:E; simpl.
      * split; auto.
      * rewrite IH. split; [now intros [H _]|now intros [H _]].
    + simpl. destruct (Py.is_AZ c); simpl; rewrite IH; [|tauto].
      split; [intros [H|H]; [congruence|exact H]|auto].
Qed.

(** X1.  [get_propositions] returns exactly the capital letters A..Z that
    occur in the expression, each once, in increasing order; so at most
    26 of them. *)
Theorem propositions_exact (expression : string) :
  (forall p, In p (get_propositions expression) <->
             Py.is_AZ p = true /\ Py.any_char (Ascii.eqb p) expression = true)
  /\ NoDup (get_propositions expression)
  /\ StronglySorted before (get_propositions expression)
  /\ List.length (get_propositions expression) <= 26.
Proof.
  repeat match goal with |- _ /\ _ => split end.
  - intros p. now rewrite propositions_In, findall_exact.
  - apply propositions_NoDup.
  - apply propositions_sorted.
  - change 26 with (List.length alphabet).
    apply NoDup_incl_length; [apply propositions_NoDup|].
    intros p Hp. apply propositions_In, findall_In, AZ_in_alphabet in Hp.
    apply existsb_exists in Hp as (q & Hq & Heq).
    apply Ascii.eqb_eq in Heq. now subst.
Qed.

(** ** When the verdict is [Invalid] *)

Lemma table_not_Invalid {C : Type} (judge : list bool -> option (option C))
    (rows : list (list bool)) (message : string) :
  table judge rows <> Some (Invalid message).
Proof.
  induction rows as [|r rows IH]; simpl; [discriminate|].
  destruct (judge r) as [[c|]|]; [discriminate|exact IH|discriminate].
Qed.

Lemma app_invalid_cases (expression message : string) :
  App.check_validity expression = Some (Invalid message) <->
  (App.has_lowercase expression = true /\ message = App.lowercase_message)
  \/ (App.has_lowercase expression = false
      /\ Py.any_char Py.is_AZ expression = false
      /\ message =
         if Py.all_chars Py.isspace expression
         then "Error: Expression is empty."
         else "Error: No propositional symbols found (use uppercase letters).").
Proof.
  unfold App.check_validity.
  destruct (App.has_lowercase expression) eqn:Hlow.
  - split.
    + intros [= <-]. now left.
    + intros [[_ ->]|[H _]]; [reflexivity|discriminate].
  - destruct (get_propositions expression) as [|p props] eqn:E.
    + apply propositions_nil in E.
      assert (Hblank : String.eqb expression "" || Py.str_isspace expression
                       = Py.all_chars Py.isspace expression).
      { destruct expression as [|c rest]; [reflexivity|]. reflexivity. }
      rewrite Hblank. split.
      * intros H. right. repeat split; trivial.
        destruct (Py.all_chars Py.isspace expression); now injection H.
      * intros [[H _]|(_ & _ & ->)]; [discriminate|].
        now destruct (Py.all_chars Py.isspace expression).
    + split.
      * intros H. rewrite AppFacts.app_truth_table_table in H.
        now apply table_not_Invalid in H.
      * intros [[H _]|(_ & H & _)]; [discriminate|].
        apply propositions_nil in H. congruence.
Qed.

(** X2.  [app.py] answers with an error message exactly when the expression
    has a lowercase letter or no capital letter, and the message tells
    which: the lowercase message first, then the empty-expression
    message for a blank expression, else the no-symbols message. *)
Theorem app_invalid_exactly (expression message : string) :
  App.check_validity expression = Some (Invalid message) <->
  (App.has_lowercase expression = true /\ message = App.lowercase_message)
  \/ (App.has_lowercase expression = false
      /\ Py.any_char Py.is_AZ expression = false
      /\ message =
         if Py.all_chars Py.isspace expression
         then "Error: Expression is empty."
         else "Error: No propositional symbols found (use uppercase letters).").
Proof. apply app_invalid_cases. Qed.

Lemma chat_invalid_cases (expression message : string) :
  ChatBot.check_validity expression = Some (Invalid message) <->
  Py.any_char Py.is_AZ expression = false
  /\ message = "Error: No propositional symbols found (use P, Q, R, etc.).".
Proof.
  unfold ChatBot.check_validity.
  destruct (get_propositions expression) as [|p props] eqn:E.
  - apply propositions_nil in E. cbn [List.length Nat.eqb]. split.
    + intros [= <-]. auto.
    + now intros [_ ->].
  - cbn [List.length Nat.eqb]. split.
    + intros H. rewrite ChatBotFacts.chat_truth_table_table in H.
      now apply table_not_Invalid in H.
    + intros [H _]. apply propositions_nil in H. congruence.
Qed.

(** X3.  [chat_bot12.py] answers with its error message exactly when the
    expression has no capital letter; lowercase letters alone never
    cause it. *)
Theorem chat_invalid_exactly (expression message : string) :
  ChatBot.check_validity expression = Some (Invalid message) <->
  Py.any_char Py.is_AZ expression = false
  /\ message = "Error: No propositional symbols found (use P, Q, R, etc.).".
Proof. apply chat_invalid_cases. Qed.

(** ** Malformed expressions

    Neither program has a tokenizer or a parser of its own.  The only
    parser that an expression meets is Python's, inside [eval], and a
    text that it rejects is a row that evaluates to [False]. *)






(** ** What a reported counterexample is *)

Lemma combine_keys (props : list ascii) (row : list bool) :
  List.length row = List.length props -> map fst (combine props row) = props.
Proof.
  revert row. induction props as [|p props IH]; intros [|v row] H;
    try discriminate; [reflexivity|].
  simpl. f_equal. apply IH. now injection H.
Qed.

Lemma first_row_In passes falsifies rows row :
  first_row passes falsifies rows row -> In row rows /\ falsifies row.
Proof.
  intros (earlier & later & -> & _ & H). split; [apply in_elt|exact H].
Qed.

(** X4.  The counterexample of [chat_bot12.py] assigns the propositions of
    the expression, each once and in increasing order, and
    [evaluate_expression] returns [False] on it. *)
Theorem chat_counterexample_falsifies (expression : string) (c : assignment) :
  ChatBot.check_validity expression = Some (NotTautology c) ->
  map fst c = get_propositions expression
  /\ ChatBot.evaluate_expression expression c = Some (Py.VBool false).
Proof.
  unfold ChatBot.check_validity.
  destruct (List.length (get_propositions expression) =? 0)%nat; [discriminate|].
  intros H.
  apply ChatBotFacts.chat_truth_table_NotTautology in H as (row & Hrow & ->).
  - apply first_row_In in Hrow as [Hin (result & Heval & Hfalse)].
    apply rows_complete in Hin. split; [now apply combine_keys|].
    rewrite Heval. destruct result as [[]|]; try discriminate. reflexivity.
  - apply propositions_NoDup.
  - intros row. apply rows_complete.
Qed.

Lemma chat_counterexample_falsifies_witness :
  map fst [("P"%char, true); ("Q"%char, false)] = get_propositions "~(P ^ ~Q)"
  /\ ChatBot.evaluate_expression "~(P ^ ~Q)" [("P"%char, true); ("Q"%char, false)]
     = Some (Py.VBool false).
Proof. apply chat_counterexample_falsifies. run. Defined.

Lemma app_counterexample_found (expression counter : string) :
  App.check_validity expression = Some (NotTautology counter) ->
  exists (a : assignment) (result : Py.value),
    counter = App.formatted a
    /\ map fst a = get_propositions expression
    /\ App.evaluate_expression expression a = Some result
    /\ Py.truthy result = false.
Proof.
  unfold App.check_validity.
  destruct (App.has_lowercase expression); [discriminate|].
  destruct (get_propositions expression) as [|p props] eqn:E.
  { destruct (_ || _); discriminate. }
  rewrite <- E. intros H.
  apply AppFacts.app_truth_table_NotTautology in H as (row & Hrow & ->).
  apply first_row_In in Hrow as [Hin (result & Heval & Hfalse)].
  apply rows_complete in Hin.
  exists (combine (get_propositions expression) row), result.
  repeat split; trivial. now apply combine_keys.
Qed.

(** X5.  The counterexample of [app.py] is the text [formatted] of an
    assignment of the propositions of the expression, each once and in
    increasing order, on which [evaluate_expression] returns a result
    that is false in Python's sense. *)
Theorem app_counterexample_falsifies (expression counter : string) :
  App.check_validity expression = Some (NotTautology counter) ->
  exists (a : assignment) (result : Py.value),
    counter = App.formatted a
    /\ map fst a = get_propositions expression
    /\ App.evaluate_expression expression a = Some result
    /\ Py.truthy result = false.
Proof. apply app_counterexample_found. Qed.

Lemma app_counterexample_falsifies_witness :
  exists (a : assignment) (result : Py.value),
    "P=True, Q=False" = App.formatted a
    /\ map fst a = get_propositions "~(P ^ ~Q)"
    /\ App.evaluate_expression "~(P ^ ~Q)" a = Some result
    /\ Py.truthy result = false.
Proof. apply app_counterexample_falsifies. run. Defined.

(** ** The page of [app.py]

    [index] is the handler of the form: it reads the field
    [expression] of a POST request, calls [check_validity] and words
    the answer.  The answer is kept as the message chosen and the
    values put into it. *)
Module Page.
Import Py.

Inductive method : Type := GET | POST.

(** The first component of the pair that [check_validity] returns: a
    truth value or, for an error, the message. *)
Inductive component : Type :=
| Flag (b : bool)
| Message (text : string).

(** The pair behind a verdict of [app.py]. *)
Definition returned (check : verdict string) : component * option string :=
  match check with
  | Tautology => (Flag true, None)
  | NotTautology counter => (Flag false, Some counter)
  | Invalid message => (Message message, None)
  end.

(** [bool(valid)]: a string is true unless it is empty. *)
Definition holds (valid : component) : bool :=
  match valid with
  | Flag b => b
  | Message text => negb (String.eqb text "")
  end.

(** The three messages that [index] can build from a pair:
    [f"... '{expression}' is a TAUTOLOGY"],
    [f"... '{expression}' is NOT a tautology. Counterexample: {readable_counter}"]
    and ["... Please enter a propositional logic expression to check."].
    The fourth, for a value that is not a pair, has no pair to come from. *)
Inductive shown : Type :=
| Is_tautology (expression : string)
| Is_not_tautology (expression readable_counter : string)
| Please_enter.

(** [counter.replace('True', 'T').replace('False', 'F')]. *)
Definition readable (counter : string) : string :=
  replace "False" "F" (replace "True" "T" counter).

(** [index]: the arguments [result] and [expression] of
    [render_template].  [field] is the form field, if the request has
    one.  [None]: no page is rendered ([check_validity] gives nothing in
    the model, or [counter] is [None] where its [replace] is called). *)
Definition index (m : method) (field : option string)
  : option (option shown * string) :=
  match m with
  | GET => Some (None, "")
  | POST =>
      let expression := strip (match field with Some text => text | None => "" end) in
      if negb (String.eqb expression "") then
        match App.check_validity expression with
        | Some check =>
            let (valid, counter) := returned check in
            if holds valid then Some (Some (Is_tautology expression), expression)
            else
              match counter with
              | Some counter =>
                  Some (Some (Is_not_tautology expression (readable counter)), expression)
              | None => None
              end
        | None => None
        end
      else Some (Some Please_enter, expression)
  end.

End Page.

(** ** The loop of [chat_bot12.py]

    One round of the [while] loop of [run_chatbot], for the line that
    [input] returned: what is printed, and whether the loop goes on. *)
Module Chat.
Import Py.

(** [c.lower()] on one character. *)
Definition lower_char (c : ascii) : ascii :=
  if is_AZ c || between 192 214 c || between 216 222 c
  then ascii_of_N (code c + 32)
  else c.

(** [s.lower()]. *)
Fixpoint lower (s : string) : string :=
  match s with
  | EmptyString => EmptyString
  | String c rest => String (lower_char c) (lower rest)
  end.

Inductive failure : Type := ValueError.

(** The lines that a round can print, each with the values put into it:
    the farewell, the two lines of a verdict, the counterexample, the
    warning [f"... {result}"] and
    [f"An unexpected error occurred: {e}"]. *)
Inductive printed : Type :=
| Goodbye
| Says_tautology (expression : string)
| Says_not_tautology (expression : string)
| Says_counterexample (formatted_example : string)
| Says_warning (result : string)
| Says_unexpected (e : failure).

Inductive control : Type := Break | Continue.

(** [", ".join([f"{p}={v}" for p, v in data.items()])]. *)
Definition formatted_example (data : assignment) : string :=
  join ", " (map (fun item => String (fst item) "" ++ "=" ++ str_bool (snd item)) data).

(** [result, data = check_validity(expression)] and the branches on
    [result].  An error comes back as a bare string, which unpacks
    into two names only when it has two characters; otherwise the
    assignment raises and the [except] clause prints. *)
Definition report (expression : string) (check : verdict assignment) : list printed :=
  match check with
  | Tautology => [Says_tautology expression]
  | NotTautology data =>
      [Says_not_tautology expression; Says_counterexample (formatted_example data)]
  | Invalid message =>
      match message with
      | String result (String _ EmptyString) => [Says_warning (String result "")]
      | _ => [Says_unexpected ValueError]
      end
  end.

(** [None]: [check_validity] gives nothing in the model. *)
Definition round (line : string) : option (list printed * control) :=
  let expression := strip line in
  if String.eqb (lower expression) "exit" then Some ([Goodbye], Break)
  else if String.eqb expression "" then Some ([], Continue)
  else
    match ChatBot.check_validity expression with
    | Some check => Some (report expression check, Continue)
    | None => None
    end.

End Chat.

(** The letters [T] and [F] for the values of an assignment. *)
Definition short (a : assignment) : string :=
  Py.join ", "
    (map (fun item : ascii * bool =>
            String (fst item) "" ++ "=" ++ (if snd item then "T" else "F")) a).

(** *** The counterexample on the page *)

Lemma scan_skip (old new : string) (c : ascii) (s : string) :
  prefix old (String c s) = false ->
  Py.replace_scan old new 0 (String c s) = String c (Py.replace_scan old new 0 s).
Proof. intros H. cbn [Py.replace_scan]. now rewrite H. Qed.

Lemma scan_hit (old new : string) (c : ascii) (s : string) :
  prefix old (String c s) = true ->
  Py.replace_scan old new 0 (String c s)
  = new ++ Py.replace_scan old new (length old - 1) s.
Proof. intros H. cbn [Py.replace_scan]. now rewrite H. Qed.

Ltac decide_prefix :=
  rewrite ?prefix_cons, ?prefix_empty; cbn [Ascii.eqb Bool.eqb andb];
  rewrite ?andb_false_r; reflexivity.

Ltac skip_char := rewrite scan_skip by decide_prefix.

Lemma scan_True_item (p : ascii) (v : bool) (rest : string) :
  Py.replace_scan "True" "T" 0 (String p ("=" ++ Py.str_bool v ++ rest))
  = String p ("=" ++ (if v then "T" else "False")
                  ++ Py.replace_scan "True" "T" 0 rest).
Proof.
  cbn [append]. skip_char. skip_char.
  destruct v; cbn [Py.str_bool append].
  - rewrite scan_hit by decide_prefix. reflexivity.
  - do 5 skip_char. reflexivity.
Qed.

Lemma scan_True_comma (rest : string) :
  Py.replace_scan "True" "T" 0 (", " ++ rest)
  = ", " ++ Py.replace_scan "True" "T" 0 rest.
Proof. cbn [append]. do 2 skip_char. reflexivity. Qed.

Lemma scan_False_item (p : ascii) (v : bool) (rest : string) :
  Py.replace_scan "False" "F" 0
    (String p ("=" ++ (if v then "T" else "False") ++ rest))
  = String p ("=" ++ (if v then "T" else "F")
                  ++ Py.replace_scan "False" "F" 0 rest).
Proof.
  cbn [append]. skip_char. skip_char.
  destruct v; cbn [append].
  - skip_char. reflexivity.
  - rewrite scan_hit by decide_prefix. reflexivity.
Qed.

Lemma scan_False_comma (rest : string) :
  Py.replace_scan "False" "F" 0 (", " ++ rest)
  = ", " ++ Py.replace_scan "False" "F" 0 rest.
Proof. cbn [append]. do 2 skip_char. reflexivity. Qed.

Lemma append_assoc (a b c : string) : (a ++ b) ++ c = a ++ (b ++ c).
Proof. induction a as [|x a IH]; simpl; [reflexivity|now rewrite IH]. Qed.

Lemma append_empty (a : string) : a ++ "" = a.
Proof. induction a as [|x a IH]; simpl; [reflexivity|now rewrite IH]. Qed.

Lemma concat_cons (sep x : string) (xs : list string) :
  concat sep (x :: xs) = match xs with [] => x | _ => x ++ sep ++ concat sep xs end.
Proof. reflexivity. Qed.

(** [readable] turns the text of an assignment into the same list with
    the letters [T] and [F], whatever its keys are. *)
Lemma readable_formatted (a : assignment) :
  Page.readable (App.formatted a) = short a.
Proof.
  unfold Page.readable, App.formatted, short, Py.join, Py.replace.
  induction a as [|[p v] a IH]; [reflexivity|].
  cbn [map fst snd]. rewrite !concat_cons.
  destruct a as [|item a].
  - cbn [map]. 
    change (String p "" ++ "=" ++ Py.str_bool v)
      with (String p ("=" ++ Py.str_bool v)).
    rewrite <- (append_empty (Py.str_bool v)).
    rewrite scan_True_item, scan_False_item. cbn [Py.replace_scan].
    now rewrite append_empty.
  - remember (item :: a) as items eqn:Hitems.
    assert (H1 : map (fun item0 : ascii * bool => String (fst item0) "" ++ "=" ++ Py.str_bool (snd item0)) items <> [])
      by (subst; discriminate).
    assert (H2 : map (fun item0 : ascii * bool => String (fst item0) "" ++ "=" ++ (if snd item0 then "T" else "F")) items <> [])
      by (subst; discriminate).
    destruct (map _ items) as [|x xs] eqn:E; [contradiction|].
    destruct (map (fun item0 : ascii * bool => String (fst item0) "" ++ "=" ++ (if snd item0 then "T" else "F")) items) as [|y ys] eqn:F; [contradiction|].
    change (String p "" ++ "=" ++ Py.str_bool v)
      with (String p ("=" ++ Py.str_bool v)).
    change ((String p ("=" ++ Py.str_bool v)) ++ ", " ++ concat ", " (x :: xs))
      with (String p (("=" ++ Py.str_bool v) ++ ", " ++ concat ", " (x :: xs))).
    rewrite !append_assoc.
    rewrite scan_True_item, scan_True_comma.
    rewrite scan_False_item, scan_False_comma, IH.
    reflexivity.
Qed.

(** X6.  [index] words every error of [check_validity] as a tautology: the
    message returned in place of the truth value is a non-empty string,
    and [if valid] takes it for true. *)
Theorem page_error_shown_as_tautology (field : string) :
  Py.strip field <> "" ->
  App.has_lowercase (Py.strip field) = true
  \/ Py.any_char Py.is_AZ (Py.strip field) = false ->
  Page.index Page.POST (Some field)
  = Some (Some (Page.Is_tautology (Py.strip field)), Py.strip field).
Proof.
  intros Hne Herr. unfold Page.index.
  destruct (String.eqb_spec (Py.strip field) "") as [|_]; [contradiction|].
  cbn [negb].
  assert (H : exists message,
             App.check_validity (Py.strip field) = Some (Invalid message)
             /\ message <> "").
  { destruct (App.has_lowercase (Py.strip field)) eqn:Hlow.
    - exists App.lowercase_message. split; [|discriminate].
      apply app_invalid_cases. now left.
    - destruct Herr as [|Hup]; [discriminate|]. eexists. split.
      + apply app_invalid_cases. right. repeat split; trivial.
      + destruct (Py.all_chars _ _); discriminate. }
  destruct H as (message & -> & Hmessage). cbn [Page.returned Page.holds].
  destruct (String.eqb_spec message ""); [contradiction|reflexivity].
Qed.

Lemma page_error_shown_as_tautology_witness :
  Page.index Page.POST (Some "  p -> q ")
  = Some (Some (Page.Is_tautology "p -> q"), "p -> q").
Proof. apply (page_error_shown_as_tautology "  p -> q "); [discriminate|left; run]. Defined.

(** X7.  When the verdict is [NotTautology], [index] shows the
    counterexample with one letter per value: each proposition of the
    expression, in increasing order, with [T] or [F]. *)
Theorem page_counterexample_letters (field counter : string) :
  App.check_validity (Py.strip field) = Some (NotTautology counter) ->
  exists a : assignment,
    map fst a = get_propositions (Py.strip field)
    /\ counter = App.formatted a
    /\ Page.index Page.POST (Some field)
       = Some (Some (Page.Is_not_tautology (Py.strip field) (short a)), Py.strip field).
Proof.
  intros H.
  destruct (app_counterexample_found _ _ H) as (a & result & -> & Hkeys & _).
  exists a. repeat split; trivial. unfold Page.index.
  destruct (String.eqb_spec (Py.strip field) "") as [E|_].
  - rewrite E in H. vm_compute in H. discriminate.
  - cbn [negb]. rewrite H. cbn [Page.returned Page.holds].
    now rewrite readable_formatted.
Qed.

Lemma page_counterexample_letters_witness :
  exists a : assignment,
    map fst a = get_propositions (Py.strip " ~(P ^ ~Q) ")
    /\ "P=True, Q=False" = App.formatted a
    /\ Page.index Page.POST (Some " ~(P ^ ~Q) ")
       = Some (Some (Page.Is_not_tautology (Py.strip " ~(P ^ ~Q) ") (short a)),
               Py.strip " ~(P ^ ~Q) ").
Proof. apply page_counterexample_letters. run. Defined.

(** X8.  The warning line of [run_chatbot] is never printed: the error of
    [check_validity] is a bare string, the assignment to [result, data]
    fails on it, and the round ends in the [except] clause.  So a line
    without a capital letter is answered by the unexpected-error line. *)
Theorem chat_warning_never_printed :
  (forall line out next result,
      Chat.round line = Some (out, next) -> ~ In (Chat.Says_warning result) out)
  /\ (forall line,
      Chat.lower (Py.strip line) <> "exit" ->
      Py.strip line <> "" ->
      Py.any_char Py.is_AZ (Py.strip line) = false ->
      Chat.round line = Some ([Chat.Says_unexpected Chat.ValueError], Chat.Continue)).
Proof.
  split.
  - intros line out next result. unfold Chat.round.
    destruct (String.eqb _ "exit").
    { intros [= <- _] [H|[]]. discriminate. }
    destruct (String.eqb _ "").
    { intros [= <- _] []. }
    destruct (ChatBot.check_validity (Py.strip line)) as [[|c|message]|] eqn:E;
      [| | |discriminate]; intros [= <- _]; cbn [Chat.report].
    + intros [H|[]]. discriminate.
    + intros [H|[H|[]]]; discriminate.
    + apply chat_invalid_cases in E as [_ ->]. intros [H|[]]. discriminate.
  - intros line Hexit Hblank Hup. unfold Chat.round.
    destruct (String.eqb_spec (Chat.lower (Py.strip line)) "exit"); [contradiction|].
    destruct (String.eqb_spec (Py.strip line) ""); [contradiction|].
    assert (E : ChatBot.check_validity (Py.strip line)
                = Some (Invalid "Error: No propositional symbols found (use P, Q, R, etc.)."))
      by now apply chat_invalid_cases.
    rewrite E. reflexivity.
Qed.

Lemma chat_warning_never_printed_witness :
  ~ In (Chat.Says_warning "E") [Chat.Says_unexpected Chat.ValueError]
  /\ Chat.round "  p v q " = Some ([Chat.Says_unexpected Chat.ValueError], Chat.Continue).
Proof.
  split.
  - apply (proj1 chat_warning_never_printed "  p v q " _ Chat.Continue). run.
  - apply (proj2 chat_warning_never_printed "  p v q "); [discriminate|discriminate|run].
Defined.

(** ** Formulas that both programs decide correctly *)

(** *** The expressions that reach [eval] *)

Module Reached.
Import Py.

(** The text handed to [eval] for such a formula: one-letter names or
    the constants put in their place, [not] (after a space where the
    rewriting leaves one), parentheses, and parenthesized [and]/[or]. *)
Inductive pyx : Type :=
| PName (p : ascii)
| PConst (b : bool)
| PNot (lead : bool) (x : pyx)
| PParen (x : pyx)
| PBin (disj : bool) (x y : pyx).

Fixpoint text (x : pyx) : string :=
  match x with
  | PName p => String p ""
  | PConst b => str_bool b
  | PNot lead x => (if lead then " " else "") ++ "not " ++ text x
  | PParen x => "(" ++ text x ++ ")"
  | PBin disj x y =>
      "(" ++ text x ++ (if disj then " or " else " and ") ++ text y ++ ")"
  end.

Fixpoint toks (x : pyx) : list token :=
  match x with
  | PName p => [NAME (String p "")]
  | PConst b => [if b then TRUE else FALSE]
  | PNot _ x => NOT :: toks x
  | PParen x => LPAR :: toks x ++ [RPAR]
  | PBin disj x y => LPAR :: toks x ++ (if disj then OR else AND) :: toks y ++ [RPAR]
  end.

Fixpoint ast (x : pyx) : expr :=
  match x with
  | PName p => Name (String p "")
  | PConst b => Constant b
  | PNot _ x => Not (ast x)
  | PParen x => ast x
  | PBin disj x y => if disj then Or (ast x) (ast y) else And (ast x) (ast y)
  end.

Fixpoint capitals (x : pyx) : Prop :=
  match x with
  | PName p => is_AZ p = true
  | PConst _ => True
  | PNot _ x | PParen x => capitals x
  | PBin _ x y => capitals x /\ capitals y
  end.

(** The truth value of the expression when [v] gives the names. *)
Fixpoint value_of (v : ascii -> bool) (x : pyx) : bool :=
  match x with
  | PName p => v p
  | PConst b => b
  | PNot _ x => negb (value_of v x)
  | PParen x => value_of v x
  | PBin disj x y =>
      if disj then value_of v x || value_of v y else value_of v x && value_of v y
  end.

(** Fuel that the parser uses on the expression. *)
Fixpoint need (x : pyx) : nat :=
  match x with
  | PName _ | PConst _ => 3
  | PNot _ x => S (need x)
  | PParen x => 5 + need x
  | PBin _ x y => 7 + Nat.max (need x) (need y)
  end.

End Reached.

Import Reached.

(** *** The tokenizer on these texts *)

Definition next_ident (s : string) : bool :=
  match s with
  | EmptyString => false
  | String c _ => Py.is_ident_char c
  end.

Definition prepend (ts : list Py.token) (following : Py.lexed) : Py.lexed :=
  fold_right Py.emit following ts.

Lemma prepend_app ts1 ts2 following :
  prepend (ts1 ++ ts2) following = prepend ts1 (prepend ts2 following).
Proof. unfold prepend. now rewrite fold_right_app. Qed.

Lemma lex_word_end (word rest : string) :
  next_ident rest = false -> Py.lex word rest = Py.flush word (Py.lex "" rest).
Proof.
  destruct rest as [|c rest]; simpl.
  - intros _. now destruct word.
  - intros ->. reflexivity.
Qed.

Lemma capital_token (p : ascii) :
  Py.is_AZ p = true -> Py.word_token (String p "") = Some (Py.NAME (String p "")).
Proof.
  intros _. unfold Py.word_token, Py.other_keywords.
  cbn [String.eqb existsb].
  repeat match goal with
         | |- context [if ?c then false else false] =>
             replace (if c then false else false) with false by now destruct c
         end.
  reflexivity.
Qed.

Lemma capital_ident (p : ascii) :
  Py.is_AZ p = true -> Py.is_ident_char p = true /\ Py.is_digit p = false.
Proof.
  destruct p as [[] [] [] [] [] [] [] []]; vm_compute; intros H;
    first [discriminate H | split; reflexivity].
Qed.

Lemma lex_capital (p : ascii) (rest : string) :
  Py.is_AZ p = true -> next_ident rest = false ->
  Py.lex "" (String p rest) = Py.emit (Py.NAME (String p "")) (Py.lex "" rest).
Proof.
  intros Hp Hrest. destruct (capital_ident p Hp) as [Hid Hdig].
  cbn [Py.lex]. rewrite Hid, Hdig. cbn [andb append].
  rewrite lex_word_end by exact Hrest.
  unfold Py.flush. now rewrite capital_token.
Qed.

Lemma lex_constant (b : bool) (rest : string) :
  next_ident rest = false ->
  Py.lex "" (Py.str_bool b ++ rest)
  = Py.emit (if b then Py.TRUE else Py.FALSE) (Py.lex "" rest).
Proof.
  intros Hrest. destruct b.
  - change (Py.lex "" (Py.str_bool true ++ rest)) with (Py.lex "True" rest).
    now rewrite lex_word_end.
  - change (Py.lex "" (Py.str_bool false ++ rest)) with (Py.lex "False" rest).
    now rewrite lex_word_end.
Qed.

Lemma lex_not (rest : string) :
  Py.lex "" ltac:(let t := eval cbn [append] in ("not " ++ rest) in exact t) = Py.emit Py.NOT (Py.lex "" rest).
Proof. reflexivity. Qed.

Lemma lex_space (rest : string) : Py.lex "" ltac:(let t := eval cbn [append] in (" " ++ rest) in exact t) = Py.lex "" rest.
Proof. reflexivity. Qed.

Lemma lex_open (rest : string) :
  Py.lex "" ltac:(let t := eval cbn [append] in ("(" ++ rest) in exact t) = Py.emit Py.LPAR (Py.lex "" rest).
Proof. reflexivity. Qed.

Lemma lex_close (rest : string) :
  Py.lex "" ltac:(let t := eval cbn [append] in (")" ++ rest) in exact t) = Py.emit Py.RPAR (Py.lex "" rest).
Proof. reflexivity. Qed.

Lemma lex_and (rest : string) :
  Py.lex "" ltac:(let t := eval cbn [append] in (" and " ++ rest) in exact t) = Py.emit Py.AND (Py.lex "" rest).
Proof. reflexivity. Qed.

Lemma lex_or (rest : string) :
  Py.lex "" ltac:(let t := eval cbn [append] in (" or " ++ rest) in exact t) = Py.emit Py.OR (Py.lex "" rest).
Proof. reflexivity. Qed.

Lemma prepend_cons t ts following :
  prepend (t :: ts) following = Py.emit t (prepend ts following).
Proof. reflexivity. Qed.

Lemma prepend_nil following : prepend [] following = following.
Proof. reflexivity. Qed.

Lemma lex_text (x : pyx) (rest : string) :
  capitals x -> next_ident rest = false ->
  Py.lex "" (text x ++ rest) = prepend (toks x) (Py.lex "" rest).
Proof.
  revert rest. induction x as [p|b|lead x IH|x IH|disj x IHx y IHy];
    intros rest Hx Hrest; cbn [text toks].
  - now apply lex_capital.
  - now apply lex_constant.
  - rewrite !append_assoc, prepend_cons. destruct lead; cbn [append];
      rewrite ?lex_space, lex_not, IH by assumption; reflexivity.
  - rewrite !append_assoc, prepend_cons, prepend_app, prepend_cons, prepend_nil.
    cbn [append]. rewrite lex_open, IH by trivial. cbn [append].
    now rewrite lex_close.
  - destruct Hx as [Hx Hy].
    rewrite !append_assoc, prepend_cons, prepend_app, prepend_cons, prepend_app,
      prepend_cons, prepend_nil.
    cbn [append]. rewrite lex_open, IHx; trivial; [|now destruct disj].
    destruct disj; cbn [append]; [rewrite lex_or|rewrite lex_and];
      rewrite IHy by trivial; cbn [append]; now rewrite lex_close.
Qed.

(** *** The parser on these tokens *)

Lemma disjunction_step (fuel : nat) (ts : list Py.token) :
  Py.disjunction (S fuel) ts =
  match Py.conjunction fuel ts with
  | Py.Parsed e (Py.OR :: rest) =>
      match Py.disjunction fuel rest with
      | Py.Parsed e' rest' => Py.Parsed (Py.Or e e') rest'
      | failure => failure
      end
  | other => other
  end.
Proof. reflexivity. Qed.

Lemma conjunction_step (fuel : nat) (ts : list Py.token) :
  Py.conjunction (S fuel) ts =
  match Py.inversion fuel ts with
  | Py.Parsed e (Py.AND :: rest) =>
      match Py.conjunction fuel rest with
      | Py.Parsed e' rest' => Py.Parsed (Py.And e e') rest'
      | failure => failure
      end
  | other => other
  end.
Proof. reflexivity. Qed.

Lemma inversion_not (fuel : nat) (ts : list Py.token) :
  Py.inversion (S fuel) (Py.NOT :: ts) =
  match Py.inversion fuel ts with
  | Py.Parsed e rest => Py.Parsed (Py.Not e) rest
  | failure => failure
  end.
Proof. reflexivity. Qed.

(** A token that does not carry on the primary before it: no call, no
    comparison. *)
Definition stops (rest : list Py.token) : bool :=
  match rest with
  | Py.LPAR :: _ | Py.LESS :: _ | Py.GREATER :: _ => false
  | _ => true
  end.

Lemma primary_to_inversion (fuel : nat) (ts rest : list Py.token) (e : Py.expr) :
  (forall ts', ts <> Py.NOT :: ts') ->
  Py.primary fuel ts = Py.Parsed e rest -> stops rest = true ->
  Py.inversion (S (S fuel)) ts = Py.Parsed e rest.
Proof.
  intros Hnot Hprim Hstop.
  assert (E : Py.inversion (S (S fuel)) ts = Py.comparison (S fuel) ts).
  { destruct ts as [|[] ts]; try reflexivity. now destruct (Hnot ts). }
  rewrite E. cbn [Py.comparison]. rewrite Hprim.
  destruct rest as [|[] rest]; try reflexivity; discriminate.
Qed.

Lemma no_call_stops (e : Py.expr) (rest : list Py.token) :
  stops rest = true -> Py.no_call e rest = Py.Parsed e rest.
Proof. destruct rest as [|[] rest]; try reflexivity; discriminate. Qed.

Lemma primary_group (fuel : nat) (ts : list Py.token) :
  (forall ts', ts <> Py.RPAR :: ts') ->
  Py.primary (S fuel) (Py.LPAR :: ts) =
  match Py.disjunction fuel ts with
  | Py.Parsed e (Py.RPAR :: rest) => Py.no_call e rest
  | Py.Parsed _ _ => Py.Invalid_syntax
  | failure => failure
  end.
Proof.
  intros H. destruct ts as [|[] ts]; try reflexivity. now destruct (H ts).
Qed.

Lemma toks_head (x : pyx) (rest : list Py.token) :
  exists t ts, (toks x ++ rest)%list = t :: ts /\ t <> Py.RPAR.
Proof.
  destruct x as [p|b|lead x|x|disj x y]; cbn [toks app]; eexists; eexists;
    (split; [reflexivity|]); try discriminate.
  destruct b; discriminate.
Qed.

Lemma toks_not_close (x : pyx) (rest ts' : list Py.token) :
  (toks x ++ rest)%list <> Py.RPAR :: ts'.
Proof.
  destruct (toks_head x rest) as (t & ts & -> & Ht). congruence.
Qed.

Ltac burn fuel :=
  destruct fuel as [|fuel]; [exfalso; cbn [need] in *; lia|].

(** With fuel for its nesting, an expression followed by a token that
    does not carry it on is parsed back. *)
Lemma parse_inversion (x : pyx) :
  forall (fuel : nat) (rest : list Py.token),
    need x <= fuel -> stops rest = true ->
    Py.inversion fuel (toks x ++ rest) = Py.Parsed (ast x) rest.
Proof.
  induction x as [p|b|lead x IH|x IH|disj x IHx y IHy]; intros fuel rest Hfuel Hstop.
  - do 3 burn fuel. apply primary_to_inversion; trivial; [discriminate|].
    cbn [toks app Py.primary ast]. now apply no_call_stops.
  - do 3 burn fuel. apply primary_to_inversion; trivial.
    + destruct b; discriminate.
    + destruct b; cbn [toks app Py.primary ast]; now apply no_call_stops.
  - burn fuel. cbn [toks app ast]. rewrite inversion_not, IH; trivial.
    cbn [need] in Hfuel. lia.
  - do 5 burn fuel. cbn [need] in Hfuel. cbn [toks ast].
    apply primary_to_inversion; trivial; [discriminate|].
    repeat first [rewrite <- app_comm_cons | rewrite <- app_assoc]. cbn [app].
    rewrite primary_group by apply toks_not_close.
    rewrite disjunction_step, conjunction_step, IH by (trivial; lia).
    cbv beta iota. now apply no_call_stops.
  - do 7 burn fuel. cbn [need] in Hfuel. cbn [toks ast].
    apply primary_to_inversion; trivial; [discriminate|].
    repeat first [rewrite <- app_comm_cons | rewrite <- app_assoc]. cbn [app].
    rewrite primary_group by apply toks_not_close.
    destruct disj.
    + rewrite disjunction_step, conjunction_step, IHx by (trivial; lia).
      cbv beta iota.
      rewrite disjunction_step, conjunction_step, IHy by (trivial; lia).
      cbv beta iota. now apply no_call_stops.
    + rewrite disjunction_step, conjunction_step, IHx by (trivial; lia).
      cbv beta iota.
      rewrite conjunction_step, IHy by (trivial; lia).
      cbv beta iota. now apply no_call_stops.
Qed.

Lemma parse_text (x : pyx) :
  need x + 2 <= Py.fuel ->
  Py.disjunction Py.fuel (toks x) = Py.Parsed (ast x) [].
Proof.
  intros H. remember Py.fuel as fuel eqn:E. clear E.
  destruct fuel as [|[|fuel]]; try lia.
  rewrite disjunction_step, conjunction_step.
  rewrite <- (app_nil_r (toks x)), parse_inversion by (trivial; lia).
  reflexivity.
Qed.

(** *** Evaluation *)

Definition bound (locals : Py.dict) (v : ascii -> bool) (p : ascii) : Prop :=
  Py.get locals (String p "") = Some (Py.VBool (v p)).

Fixpoint names (x : pyx) : list ascii :=
  match x with
  | PName p => [p]
  | PConst _ => []
  | PNot _ x | PParen x => names x
  | PBin _ x y => names x ++ names y
  end.

Lemma evaluate_ast (globals locals : Py.dict) (v : ascii -> bool) (x : pyx) :
  (forall p, In p (names x) -> bound locals v p) ->
  Py.evaluate globals locals (ast x) = Some (Py.Returns (Py.VBool (value_of v x))).
Proof.
  induction x as [p|b|lead x IH|x IH|disj x IHx y IHy]; intros H;
    cbn [ast Py.evaluate value_of names] in *.
  - rewrite (H p) by now left. reflexivity.
  - reflexivity.
  - now rewrite IH.
  - now apply IH.
  - assert (Hx : Py.evaluate globals locals (ast x)
                 = Some (Py.Returns (Py.VBool (value_of v x))))
      by (apply IHx; intros p Hp; apply H, in_or_app; now left).
    assert (Hy : Py.evaluate globals locals (ast y)
                 = Some (Py.Returns (Py.VBool (value_of v y))))
      by (apply IHy; intros p Hp; apply H, in_or_app; now right).
    destruct disj; cbn [Py.evaluate]; rewrite Hx; cbn [Py.truthy];
      destruct (value_of v x); cbn [orb andb]; trivial.
Qed.

(** [eval] on the text of an expression whose names are bound gives its
    truth value. *)
Lemma eval_text (globals locals : Py.dict) (v : ascii -> bool) (x : pyx) :
  capitals x -> need x + 2 <= Py.fuel ->
  (forall p, In p (names x) -> bound locals v p) ->
  Py.eval (text x) globals locals = Some (Py.Returns (Py.VBool (value_of v x))).
Proof.
  intros Hcap Hfuel Hbound. unfold Py.eval.
  rewrite <- (append_empty (text x)), lex_text by trivial.
  change (Py.lex "" "") with (Py.Tokens []).
  assert (E : prepend (toks x) (Py.Tokens []) = Py.Tokens (toks x)).
  { induction (toks x) as [|t ts IH]; [reflexivity|].
    rewrite prepend_cons, IH. reflexivity. }
  rewrite E, parse_text by trivial. now apply evaluate_ast.
Qed.

(** *** Formulas in the notation of the programs *)

(** Capital letters, negation written [~] or [!], conjunction written
    [^] or [&], disjunction written [v]; binary connectives are written
    between spaces and in parentheses. *)
Inductive formula : Type :=
| Var (p : ascii)
| Neg (bang : bool) (f : formula)
| Conj (amp : bool) (f g : formula)
| Disj (f g : formula).

Fixpoint write (f : formula) : string :=
  match f with
  | Var p => String p ""
  | Neg bang f => (if bang then "!" else "~") ++ write f
  | Conj amp f g => "(" ++ write f ++ (if amp then " & " else " ^ ") ++ write g ++ ")"
  | Disj f g => "(" ++ write f ++ " v " ++ write g ++ ")"
  end.

(** The truth value of a formula. *)
Fixpoint holds (v : ascii -> bool) (f : formula) : bool :=
  match f with
  | Var p => v p
  | Neg _ f => negb (holds v f)
  | Conj _ f g => holds v f && holds v g
  | Disj f g => holds v f || holds v g
  end.

Fixpoint letters (f : formula) : list ascii :=
  match f with
  | Var p => [p]
  | Neg _ f => letters f
  | Conj _ f g | Disj f g => letters f ++ letters g
  end.

(** Every proposition is a capital letter. *)
Definition proper (f : formula) : Prop :=
  forall p, In p (letters f) -> Py.is_AZ p = true.

Fixpoint depth (f : formula) : nat :=
  match f with
  | Var _ => 1
  | Neg _ f => S (depth f)
  | Conj _ f g | Disj f g => S (Nat.max (depth f) (depth g))
  end.

(** The truth values that an assignment gives. *)
Definition valuation (a : assignment) (p : ascii) : bool :=
  match ChatBot.item a p with
  | Some b => b
  | None => false
  end.

Lemma proper_Neg bang f : proper (Neg bang f) -> proper f.
Proof. exact (fun H => H). Qed.

Lemma proper_left f g : (forall p, In p (letters f ++ letters g) -> Py.is_AZ p = true) -> proper f.
Proof. intros H p Hp. apply H, in_or_app. now left. Qed.

Lemma proper_right f g : (forall p, In p (letters f ++ letters g) -> Py.is_AZ p = true) -> proper g.
Proof. intros H p Hp. apply H, in_or_app. now right. Qed.

Ltac sub_proper H :=
  first [exact H | eapply proper_left; exact H | eapply proper_right; exact H].

(** *** Replacing one character *)

Lemma replace_char_cons (c d : ascii) (new s : string) :
  Py.replace (String c "") new (String d s)
  = (if Ascii.eqb d c then new else String d "") ++ Py.replace (String c "") new s.
Proof.
  unfold Py.replace. cbn [Py.replace_scan].
  rewrite prefix_cons, prefix_empty, andb_true_r.
  now destruct (Ascii.eqb d c).
Qed.

Lemma replace_char_app (c : ascii) (new s t : string) :
  Py.replace (String c "") new (s ++ t)
  = Py.replace (String c "") new s ++ Py.replace (String c "") new t.
Proof.
  induction s as [|d s IH]; [reflexivity|].
  cbn [append]. rewrite !replace_char_cons, IH. now rewrite append_assoc.
Qed.

Lemma capital_differs (p c : ascii) :
  Py.is_AZ p = true -> Py.is_AZ c = false -> Ascii.eqb p c = false /\ Ascii.eqb c p = false.
Proof.
  intros Hp Hc. split.
  - destruct (Ascii.eqb_spec p c); [congruence|reflexivity].
  - destruct (Ascii.eqb_spec c p); [congruence|reflexivity].
Qed.

Lemma replace_char_capital (c p : ascii) (new : string) :
  Py.is_AZ p = true -> Py.is_AZ c = false ->
  Py.replace (String c "") new (String p "") = String p "".
Proof.
  intros Hp Hc. rewrite replace_char_cons.
  now destruct (capital_differs p c Hp Hc) as [-> _].
Qed.

Lemma any_char_app (test : ascii -> bool) (s t : string) :
  Py.any_char test (s ++ t) = Py.any_char test s || Py.any_char test t.
Proof.
  induction s as [|c s IH]; [reflexivity|].
  cbn [append Py.any_char]. now rewrite IH, orb_assoc.
Qed.

(** A text without a dash has no arrow to replace. *)
Lemma no_dash_no_arrow (s : string) :
  Py.any_char (fun c => Ascii.eqb c "-") s = false -> occurs "->" s = false.
Proof.
  induction s as [|c s IH]; [reflexivity|].
  cbn [Py.any_char occurs]. intros H. apply orb_false_elim in H as [Hc Hs].
  now rewrite prefix_arrow, Hc, IH.
Qed.

Lemma no_dash_arrow_kept (new s : string) :
  Py.any_char (fun c => Ascii.eqb c "-") s = false -> Py.replace "->" new s = s.
Proof.
  unfold Py.replace. induction s as [|c s IH]; [reflexivity|].
  cbn [Py.any_char]. intros H. apply orb_false_elim in H as [Hc Hs].
  rewrite scan_arrow, Hc. cbn [andb]. now rewrite IH.
Qed.

Lemma write_no_dash (f : formula) :
  proper f -> Py.any_char (fun c => Ascii.eqb c "-") (write f) = false.
Proof.
  induction f as [p|bang f IH|amp f IHf g IHg|f IHf g IHg]; intros H; cbn [write].
  - cbn [Py.any_char]. rewrite orb_false_r.
    apply (capital_differs p "-"); [apply H; now left|reflexivity].
  - rewrite any_char_app, IH by exact H. now destruct bang.
  - rewrite !any_char_app, IHf, IHg by (sub_proper H).
    now destruct amp.
  - rewrite !any_char_app, IHf, IHg by (sub_proper H).
    reflexivity.
Qed.

(** *** [chat_bot12.py]: the connectives *)

(** The expression that the formula becomes once the propositions in
    [state] have their values. *)
Fixpoint chat_x (state : ascii -> option bool) (f : formula) : pyx :=
  match f with
  | Var p => match state p with Some b => PConst b | None => PName p end
  | Neg _ f => PNot false (chat_x state f)
  | Conj _ f g => PBin false (chat_x state f) (chat_x state g)
  | Disj f g => PBin true (chat_x state f) (chat_x state g)
  end.

Definition unset : ascii -> option bool := fun _ => None.

(** The five replacements of single characters, in the order of
    [chat_bot12.py]. *)
Definition chat_symbols (s : string) : string :=
  Py.replace "!" "not " (Py.replace "~" "not " (Py.replace "v" "or"
    (Py.replace "&" "and" (Py.replace "^" "and" s)))).

Lemma chat_symbols_app (s t : string) :
  chat_symbols (s ++ t) = chat_symbols s ++ chat_symbols t.
Proof. unfold chat_symbols. now rewrite !replace_char_app. Qed.

Lemma chat_symbols_capital (p : ascii) :
  Py.is_AZ p = true -> chat_symbols (String p "") = String p "".
Proof.
  intros H. unfold chat_symbols. now rewrite !replace_char_capital.
Qed.

Lemma chat_symbols_write (f : formula) :
  proper f -> chat_symbols (write f) = text (chat_x unset f).
Proof.
  induction f as [p|bang f IH|amp f IHf g IHg|f IHf g IHg]; intros H;
    cbn [write chat_x text unset].
  - apply chat_symbols_capital, H. now left.
  - rewrite chat_symbols_app, IH by exact H. now destruct bang.
  - rewrite !chat_symbols_app, IHf, IHg
      by (sub_proper H).
    now destruct amp.
  - rewrite !chat_symbols_app, IHf, IHg
      by (sub_proper H).
    reflexivity.
Qed.

Lemma chat_connectives_write (f : formula) :
  proper f -> ChatBot.connectives (write f) = text (chat_x unset f).
Proof.
  intros H. unfold ChatBot.connectives.
  rewrite (no_dash_arrow_kept "implies") by now apply write_no_dash.
  assert (E : Py.replace "<->" "iff" (write f) = write f).
  { unfold Py.replace. apply scan_absent, no_dash_no_arrow. now apply write_no_dash. }
  rewrite E. now apply chat_symbols_write.
Qed.

(** *** [chat_bot12.py]: the propositions become their values *)

(** The state after [p] is replaced by the text of [b]: a proposition
    already replaced keeps its value. *)
Definition update (state : ascii -> option bool) (p : ascii) (b : bool)
  : ascii -> option bool :=
  fun q =>
    if Ascii.eqb q p
    then match state q with Some b' => Some b' | None => Some b end
    else state q.

Definition after (a : assignment) (state : ascii -> option bool)
  : ascii -> option bool :=
  fold_left (fun state item => update state (fst item) (snd item)) a state.

Lemma capital_word (p : ascii) : Py.is_AZ p = true -> Py.is_word p = true.
Proof. intros H. unfold Py.is_word, Py.isalpha. now rewrite H. Qed.

Lemma other_than_capital (p c : ascii) :
  Py.is_AZ p = true -> Py.is_AZ c = false -> Ascii.eqb c p = false.
Proof. intros Hp Hc. now apply (capital_differs p c). Qed.

Lemma sub_word_step (p c : ascii) (repl : string) (flag : bool) (s : string) :
  Py.sub_word p repl flag (String c s) =
  if Ascii.eqb c p && negb flag && negb (Py.starts_with_word s)
  then repl ++ Py.sub_word p repl true s
  else String c (Py.sub_word p repl (Py.is_word c) s).
Proof. reflexivity. Qed.

Lemma sub_word_other (p c : ascii) (repl : string) (flag : bool) (s : string) :
  Ascii.eqb c p = false ->
  Py.sub_word p repl flag (String c s) = String c (Py.sub_word p repl (Py.is_word c) s).
Proof. intros H. rewrite sub_word_step. now rewrite H. Qed.

Lemma sub_word_clear (p : ascii) (repl : string) (flag : bool) (rest : string) :
  Py.is_AZ p = true -> Py.starts_with_word rest = false ->
  Py.sub_word p repl flag rest = Py.sub_word p repl false rest.
Proof.
  intros Hp Hrest. destruct rest as [|c rest]; [reflexivity|].
  cbn [Py.starts_with_word] in Hrest.
  assert (Hc : Ascii.eqb c p = false).
  { destruct (Ascii.eqb_spec c p) as [->|]; [|reflexivity].
    apply capital_word in Hp. congruence. }
  now rewrite !sub_word_other.
Qed.

Ltac pass_char Hp :=
  rewrite sub_word_other by (apply (other_than_capital _ _ Hp); reflexivity).

Lemma sub_word_constant (p : ascii) (repl : string) (b : bool) (rest : string) :
  Py.is_AZ p = true -> Py.starts_with_word rest = false ->
  Py.sub_word p repl false (Py.str_bool b ++ rest)
  = Py.str_bool b ++ Py.sub_word p repl false rest.
Proof.
  intros Hp Hrest. destruct b; cbn [Py.str_bool append].
  - rewrite sub_word_step. cbn [Py.starts_with_word].
    change (Py.is_word "r") with true. cbn [negb]. rewrite andb_false_r.
    do 3 pass_char Hp. now rewrite (sub_word_clear p repl (Py.is_word "e")).
  - rewrite sub_word_step. cbn [Py.starts_with_word].
    change (Py.is_word "a") with true. cbn [negb]. rewrite andb_false_r.
    do 4 pass_char Hp. now rewrite (sub_word_clear p repl (Py.is_word "e")).
Qed.

Lemma sub_word_text (p : ascii) (b : bool) (state : ascii -> option bool)
    (f : formula) :
  Py.is_AZ p = true -> proper f ->
  forall rest, Py.starts_with_word rest = false ->
    Py.sub_word p (Py.str_bool b) false (text (chat_x state f) ++ rest)
    = text (chat_x (update state p b) f) ++ Py.sub_word p (Py.str_bool b) false rest.
Proof.
  intros Hp. induction f as [q|bang f IH|amp f IHf g IHg|f IHf g IHg];
    intros Hf rest Hrest; cbn [chat_x text].
  - unfold update. destruct (state q) as [b'|] eqn:E.
    + destruct (Ascii.eqb q p); cbn [text]; now apply sub_word_constant.
    + cbn [text append]. destruct (Ascii.eqb_spec q p) as [->|Hne].
      * rewrite sub_word_step, Ascii.eqb_refl, Hrest. cbn [andb negb text].
        now rewrite (sub_word_clear p _ true).
      * cbn [text append]. rewrite sub_word_other.
        -- now rewrite (sub_word_clear p _ (Py.is_word q)).
        -- destruct (Ascii.eqb_spec q p); [contradiction|reflexivity].
  - rewrite ?append_assoc. cbn [append].
    do 4 pass_char Hp. change (Py.is_word " ") with false.
    now rewrite IH.
  - rewrite !append_assoc. cbn [append]. pass_char Hp.
    change (Py.is_word "(") with false.
    rewrite IHf by (trivial; sub_proper Hf). f_equal. f_equal.
    cbn [append]. do 5 pass_char Hp. change (Py.is_word " ") with false.
    rewrite IHg by (trivial; sub_proper Hf). f_equal.
    cbn [append]. pass_char Hp. change (Py.is_word ")") with false. reflexivity.
  - rewrite !append_assoc. cbn [append]. pass_char Hp.
    change (Py.is_word "(") with false.
    rewrite IHf by (trivial; sub_proper Hf). f_equal. f_equal.
    cbn [append]. do 4 pass_char Hp. change (Py.is_word " ") with false.
    rewrite IHg by (trivial; sub_proper Hf). f_equal.
    cbn [append]. pass_char Hp. change (Py.is_word ")") with false. reflexivity.
Qed.

Lemma substitute_text (a : assignment) (f : formula) :
  Forall (fun item => Py.is_AZ (fst item) = true) a -> proper f ->
  forall state,
    ChatBot.substitute a (text (chat_x state f)) = text (chat_x (after a state) f).
Proof.
  intros Ha Hf. unfold ChatBot.substitute, after.
  induction Ha as [|[p b] a Hp Ha IH]; intros state; [reflexivity|].
  cbn [fold_left fst snd] in *.
  rewrite <- (append_empty (text (chat_x state f))).
  rewrite sub_word_text by trivial. cbn [Py.sub_word].
  rewrite append_empty. apply IH.
Qed.

Lemma after_item (a : assignment) (state : ascii -> option bool) (p : ascii) :
  after a state p = match state p with Some b => Some b | None => ChatBot.item a p end.
Proof.
  unfold after. revert state. induction a as [|[k v] a IH]; intros state.
  - cbn. now destruct (state p).
  - cbn [fold_left fst snd]. rewrite IH. unfold update. cbn [ChatBot.item].
    rewrite (Ascii.eqb_sym k p).
    destruct (Ascii.eqb p k); destruct (state p); reflexivity.
Qed.

Lemma chat_x_ext (state state' : ascii -> option bool) (f : formula) :
  (forall p, In p (letters f) -> state p = state' p) ->
  chat_x state f = chat_x state' f.
Proof.
  induction f as [q|bang f IH|amp f IHf g IHg|f IHf g IHg]; intros H;
    cbn [chat_x letters] in *.
  - rewrite (H q) by now left. reflexivity.
  - now rewrite IH.
  - rewrite IHf, IHg; trivial; intros p Hp; apply H, in_or_app; auto.
  - rewrite IHf, IHg; trivial; intros p Hp; apply H, in_or_app; auto.
Qed.

(** The text that [chat_bot12.py] hands to [eval]. *)
Lemma chat_rewritten_write (f : formula) (a : assignment) :
  Forall (fun item => Py.is_AZ (fst item) = true) a -> proper f ->
  ChatBot.rewritten (write f) a = text (chat_x (ChatBot.item a) f).
Proof.
  intros Ha Hf. unfold ChatBot.rewritten.
  rewrite chat_connectives_write, substitute_text by trivial.
  f_equal. apply chat_x_ext. intros p _. now rewrite after_item.
Qed.

Lemma chat_x_capitals (state : ascii -> option bool) (f : formula) :
  proper f -> capitals (chat_x state f).
Proof.
  induction f as [q|bang f IH|amp f IHf g IHg|f IHf g IHg]; intros H;
    cbn [chat_x capitals].
  - destruct (state q); [exact I|]. apply H. now left.
  - now apply IH.
  - split; [apply IHf|apply IHg]; sub_proper H.
  - split; [apply IHf|apply IHg]; sub_proper H.
Qed.

Lemma chat_x_need (state : ascii -> option bool) (f : formula) :
  need (chat_x state f) <= 7 * depth f + 2.
Proof.
  induction f as [q|bang f IH|amp f IHf g IHg|f IHf g IHg]; cbn [chat_x need depth].
  - destruct (state q); cbn [need]; lia.
  - lia.
  - lia.
  - lia.
Qed.

Lemma chat_x_names (state : ascii -> option bool) (f : formula) :
  (forall p, In p (letters f) -> state p <> None) -> names (chat_x state f) = [].
Proof.
  induction f as [q|bang f IH|amp f IHf g IHg|f IHf g IHg]; intros H;
    cbn [chat_x names letters] in *.
  - destruct (state q) eqn:E; [reflexivity|]. exfalso. apply (H q); [now left|exact E].
  - now apply IH.
  - rewrite IHf, IHg; trivial; intros p Hp; apply H, in_or_app; auto.
  - rewrite IHf, IHg; trivial; intros p Hp; apply H, in_or_app; auto.
Qed.

Lemma chat_x_value (a : assignment) (v : ascii -> bool) (f : formula) :
  (forall p, In p (letters f) -> ChatBot.item a p <> None) ->
  value_of v (chat_x (ChatBot.item a) f) = holds (valuation a) f.
Proof.
  induction f as [q|bang f IH|amp f IHf g IHg|f IHf g IHg]; intros H;
    cbn [chat_x value_of holds letters] in *.
  - unfold valuation. destruct (ChatBot.item a q) eqn:E; [reflexivity|].
    exfalso. apply (H q); [now left|exact E].
  - now rewrite IH.
  - rewrite IHf, IHg; trivial; intros p Hp; apply H, in_or_app; auto.
  - rewrite IHf, IHg; trivial; intros p Hp; apply H, in_or_app; auto.
Qed.

Lemma chat_formula_value (f : formula) (a : assignment) :
  proper f -> depth f <= 56 ->
  Forall (fun item => Py.is_AZ (fst item) = true) a ->
  (forall p, In p (letters f) -> ChatBot.item a p <> None) ->
  ChatBot.evaluate_expression (write f) a = Some (Py.VBool (holds (valuation a) f)).
Proof.
  intros Hf Hdepth Ha Hbound. unfold ChatBot.evaluate_expression.
  rewrite chat_rewritten_write by trivial.
  rewrite (eval_text _ _ (fun _ => false)).
  - now rewrite chat_x_value.
  - now apply chat_x_capitals.
  - assert (H := chat_x_need (ChatBot.item a) f). unfold Py.fuel. lia.
  - rewrite chat_x_names by trivial. intros p [].
Qed.

(** X9.  On a formula in this notation, nested at most 56 deep, whose
    propositions all have a value in the assignment,
    [evaluate_expression] of [chat_bot12.py] returns the truth value
    of the formula. *)
Theorem chat_evaluates_formula (f : formula) (a : assignment) :
  proper f -> depth f <= 56 ->
  Forall (fun item => Py.is_AZ (fst item) = true) a ->
  (forall p, In p (letters f) -> ChatBot.item a p <> None) ->
  ChatBot.evaluate_expression (write f) a = Some (Py.VBool (holds (valuation a) f)).
Proof. apply chat_formula_value. Qed.

Lemma chat_evaluates_formula_witness :
  ChatBot.evaluate_expression "(!P v (Q & ~R))"
    [("P"%char, true); ("Q"%char, true); ("R"%char, false)]
  = Some (Py.VBool true).
Proof.
  apply (chat_evaluates_formula
           (Disj (Neg true (Var "P")) (Conj true (Var "Q") (Neg false (Var "R"))))
           [("P"%char, true); ("Q"%char, true); ("R"%char, false)]).
  - intros p H. cbn in H. repeat destruct H as [<-|H]; try reflexivity. destruct H.
  - cbn. lia.
  - repeat constructor.
  - intros p H. cbn in H. repeat destruct H as [<-|H]; try discriminate. destruct H.
Defined.

(** *** [app.py]: the connectives *)

Definition app_symbols (s : string) : string :=
  Py.replace "!" " not " (Py.replace "~" " not " (Py.replace "v" " or "
    (Py.replace "&" " and " (Py.replace "^" " and " s)))).

(** The formula after the replacements: every connective between
    spaces. *)
Fixpoint raw (f : formula) : string :=
  match f with
  | Var p => String p ""
  | Neg _ f => " not " ++ raw f
  | Conj _ f g => "(" ++ raw f ++ "  and  " ++ raw g ++ ")"
  | Disj f g => "(" ++ raw f ++ "  or  " ++ raw g ++ ")"
  end.

(** After [re.sub(r'\s+', ' ', ..)]: [tight b f] follows a space when
    [b] holds. *)
Fixpoint tight (b : bool) (f : formula) : string :=
  match f with
  | Var p => String p ""
  | Neg _ f => (if b then "" else " ") ++ "not " ++ tight true f
  | Conj _ f g => "(" ++ tight false f ++ " and " ++ tight true g ++ ")"
  | Disj f g => "(" ++ tight false f ++ " or " ++ tight true g ++ ")"
  end.

(** The expression that reaches [eval]: a negated proposition has been
    put in parentheses. *)
Fixpoint app_x (b : bool) (f : formula) : pyx :=
  match f with
  | Var p => PName p
  | Neg _ g =>
      PNot (negb b)
           match g with
           | Var p => PParen (PName p)
           | _ => app_x true g
           end
  | Conj _ f g => PBin false (app_x false f) (app_x true g)
  | Disj f g => PBin true (app_x false f) (app_x true g)
  end.

Lemma app_symbols_app (s t : string) :
  app_symbols (s ++ t) = app_symbols s ++ app_symbols t.
Proof. unfold app_symbols. now rewrite !replace_char_app. Qed.

Lemma app_symbols_write (f : formula) :
  proper f -> app_symbols (write f) = raw f.
Proof.
  induction f as [p|bang f IH|amp f IHf g IHg|f IHf g IHg]; intros H;
    cbn [write raw].
  - unfold app_symbols. rewrite !replace_char_capital; trivial; apply H; now left.
  - rewrite app_symbols_app, IH by exact H. now destruct bang.
  - rewrite !app_symbols_app, IHf, IHg by (sub_proper H). now destruct amp.
  - rewrite !app_symbols_app, IHf, IHg by (sub_proper H). reflexivity.
Qed.

(** *** [app.py]: the white space *)

Lemma capital_not_space (p : ascii) : Py.is_AZ p = true -> Py.isspace p = false.
Proof.
  intros H. destruct (Py.isspace p) eqn:E; [|reflexivity].
  apply isspace_not_letter in E as [E _]. congruence.
Qed.

Lemma sub_spaces_space (b : bool) (s : string) :
  Py.sub_spaces b (String " " s) = (if b then "" else " ") ++ Py.sub_spaces true s.
Proof. now destruct b. Qed.

Lemma sub_spaces_other (b : bool) (c : ascii) (s : string) :
  Py.isspace c = false ->
  Py.sub_spaces b (String c s) = String c (Py.sub_spaces false s).
Proof. intros H. cbn [Py.sub_spaces]. now rewrite H. Qed.

Ltac keep_char := rewrite sub_spaces_other by reflexivity.

Lemma sub_spaces_raw (f : formula) :
  proper f ->
  forall (b : bool) (rest : string),
    Py.sub_spaces b (raw f ++ rest) = tight b f ++ Py.sub_spaces false rest.
Proof.
  induction f as [p|bang f IH|amp f IHf g IHg|f IHf g IHg]; intros H b rest;
    cbn [raw tight].
  - cbn [append]. apply sub_spaces_other, capital_not_space, H. now left.
  - rewrite ?append_assoc. cbn [append].
    rewrite sub_spaces_space. do 3 keep_char. rewrite sub_spaces_space.
    rewrite IH by exact H. destruct b; reflexivity.
  - rewrite ?append_assoc. cbn [append]. keep_char.
    rewrite IHf by (sub_proper H).
    cbn [append]. rewrite !sub_spaces_space. cbn [append]. do 3 keep_char.
    rewrite !sub_spaces_space. cbn [append].
    rewrite IHg by (sub_proper H). cbn [append]. keep_char. reflexivity.
  - rewrite ?append_assoc. cbn [append]. keep_char.
    rewrite IHf by (sub_proper H).
    cbn [append]. rewrite !sub_spaces_space. cbn [append]. do 2 keep_char.
    rewrite !sub_spaces_space. cbn [append].
    rewrite IHg by (sub_proper H). cbn [append]. keep_char. reflexivity.
Qed.

Lemma rstrip_keep (s : string) (c : ascii) :
  Py.isspace c = false -> Py.rstrip (s ++ String c "") = s ++ String c "".
Proof.
  intros Hc. induction s as [|d s IH]; cbn [append Py.rstrip].
  - now rewrite Hc.
  - rewrite IH. now destruct s.
Qed.

Lemma tight_last (f : formula) :
  proper f ->
  forall b, exists s c, tight b f = s ++ String c "" /\ Py.isspace c = false.
Proof.
  induction f as [p|bang f IH|amp f IHf g IHg|f IHf g IHg]; intros H b; cbn [tight].
  - exists "", p. split; [reflexivity|]. apply capital_not_space, H. now left.
  - destruct (IH H true) as (s & c & -> & Hc).
    exists ((if b then "" else " ") ++ "not " ++ s), c.
    split; [now rewrite !append_assoc|exact Hc].
  - exists ("(" ++ tight false f ++ " and " ++ tight true g), ")"%char.
    split; [now rewrite !append_assoc|reflexivity].
  - exists ("(" ++ tight false f ++ " or " ++ tight true g), ")"%char.
    split; [now rewrite !append_assoc|reflexivity].
Qed.

Lemma strip_tight (f : formula) :
  proper f -> Py.strip (tight false f) = tight true f.
Proof.
  intros H. unfold Py.strip.
  assert (E : Py.lstrip (tight false f) = tight true f).
  { destruct f as [p|bang f|amp f g|f g]; cbn [tight]; try reflexivity.
    cbn [append Py.lstrip]. rewrite capital_not_space; [reflexivity|].
    apply H. now left. }
  rewrite E. destruct (tight_last f H true) as (s & c & -> & Hc).
  now apply rstrip_keep.
Qed.

(** *** [app.py]: the parentheses around a negated proposition *)

Definition next_capital (s : string) : bool :=
  match s with
  | EmptyString => false
  | String c _ => Py.is_AZ c
  end.

Lemma sub_not_step (c : ascii) (s : string) :
  Py.sub_not 0 (String c s) =
  match Py.match_not (String c s) with
  | Some (letters, len) => "not (" ++ letters ++ ")" ++ Py.sub_not (len - 1) s
  | None => String c (Py.sub_not 0 s)
  end.
Proof. reflexivity. Qed.

Lemma sub_not_other (c : ascii) (s : string) :
  Ascii.eqb c "n" = false -> Py.sub_not 0 (String c s) = String c (Py.sub_not 0 s).
Proof.
  intros H. rewrite sub_not_step. unfold Py.match_not.
  now rewrite prefix_cons, H.
Qed.

Lemma span_one_space (c : ascii) (s : string) :
  Py.isspace c = false ->
  Py.span Py.isspace (String " " (String c s)) = (" ", String c s).
Proof.
  intros H. cbn [Py.span]. change (Py.isspace " ") with true. cbn iota.
  now rewrite H.
Qed.

Lemma match_not_start (s : string) :
  Py.match_not ("not" ++ s) =
  let (spaces, after) := Py.span Py.isspace s in
  let (letters, _) := Py.span Py.is_AZ after in
  match spaces, letters with
  | String _ _, String _ _ => Some (letters, 3 + length spaces + length letters)
  | _, _ => None
  end.
Proof.
  cbn [append]. unfold Py.match_not.
  rewrite !prefix_cons, prefix_empty. reflexivity.
Qed.

Lemma span_stop (test : ascii -> bool) (s : string) :
  match s with EmptyString => true | String c _ => negb (test c) end = true ->
  Py.span test s = ("", s).
Proof.
  destruct s as [|c s]; [reflexivity|]. cbn [Py.span].
  intros H. apply negb_true_iff in H. now rewrite H.
Qed.

(** [not] before anything but a capital letter stays as it is. *)
Lemma sub_not_kept (s : string) :
  match s with
  | EmptyString => false
  | String c _ => negb (Py.isspace c) && negb (Py.is_AZ c)
  end = true ->
  Py.sub_not 0 ("not " ++ s) = "not " ++ Py.sub_not 0 s.
Proof.
  destruct s as [|c s]; [discriminate|]. intros H.
  apply andb_prop in H as [Hs Hc]. apply negb_true_iff in Hs, Hc.
  cbn [append]. rewrite sub_not_step.
  assert (E : Py.match_not (String "n" (String "o" (String "t" (String " " (String c s)))))
              = None).
  { change (String "n" (String "o" (String "t" (String " " (String c s)))))
      with ("not" ++ String " " (String c s)).
    rewrite match_not_start, span_one_space by exact Hs.
    rewrite span_stop by (now rewrite Hc). reflexivity. }
  rewrite E, (sub_not_other "o"), (sub_not_other "t"), (sub_not_other " ")
    by reflexivity.
  reflexivity.
Qed.

(** [not] before a proposition: the proposition is put in parentheses. *)
Lemma sub_not_capital (p : ascii) (rest : string) :
  Py.is_AZ p = true -> next_capital rest = false ->
  Py.sub_not 0 ("not " ++ String p rest) = "not (" ++ String p ")" ++ Py.sub_not 0 rest.
Proof.
  intros Hp Hrest. cbn [append]. rewrite sub_not_step.
  assert (E : Py.match_not (String "n" (String "o" (String "t" (String " " (String p rest)))))
              = Some (String p "", 5)).
  { change (String "n" (String "o" (String "t" (String " " (String p rest)))))
      with ("not" ++ String " " (String p rest)).
    rewrite match_not_start, span_one_space by now apply capital_not_space.
    cbn [Py.span]. rewrite Hp, span_stop; [reflexivity|].
    destruct rest as [|c rest]; [reflexivity|]. cbn in Hrest. now rewrite Hrest. }
  rewrite E. reflexivity.
Qed.

Lemma sub_not_miss (c : ascii) (s : string) :
  prefix "not" (String c s) = false ->
  Py.sub_not 0 (String c s) = String c (Py.sub_not 0 s).
Proof. intros H. rewrite sub_not_step. unfold Py.match_not. now rewrite H. Qed.

Ltac miss_char := rewrite sub_not_miss by decide_prefix.

Lemma tight_true_plain (f : formula) (rest : string) :
  (forall p, f <> Var p) ->
  match tight true f ++ rest with
  | EmptyString => false
  | String c _ => negb (Py.isspace c) && negb (Py.is_AZ c)
  end = true.
Proof.
  destruct f as [p|bang f|amp f g|f g]; intros H; try reflexivity.
  now destruct (H p).
Qed.

Lemma app_x_Neg (b bang : bool) (f : formula) :
  (forall p, f <> Var p) -> app_x b (Neg bang f) = PNot (negb b) (app_x true f).
Proof.
  destruct f as [p|bang' f|amp f g|f g]; intros H; try reflexivity.
  now destruct (H p).
Qed.

Lemma sub_not_tight (f : formula) :
  proper f ->
  forall (b : bool) (rest : string),
    next_capital rest = false ->
    Py.sub_not 0 (tight b f ++ rest) = text (app_x b f) ++ Py.sub_not 0 rest.
Proof.
  induction f as [p|bang f IH|amp f IHf g IHg|f IHf g IHg]; intros H b rest Hrest.
  - cbn [tight app_x text append]. apply sub_not_other.
    apply (capital_differs p "n"); [apply H; now left|reflexivity].
  - assert (E : Py.sub_not 0 ("not " ++ tight true f ++ rest)
                = "not " ++ text match f with
                                 | Var p => PParen (PName p)
                                 | _ => app_x true f
                                 end ++ Py.sub_not 0 rest).
    { destruct f as [p|bang' f'|amp f' g'|f' g'] eqn:Ef.
      - cbn [tight text]. cbn [append]. 
        change (String "n" (String "o" (String "t" (String " " (String p rest)))))
          with ("not " ++ String p rest).
        rewrite sub_not_capital; trivial. apply H. now left.
      - rewrite <- Ef in *. rewrite sub_not_kept, IH; trivial.
        apply tight_true_plain. intros p. rewrite Ef. discriminate.
      - rewrite <- Ef in *. rewrite sub_not_kept, IH; trivial.
        apply tight_true_plain. intros p. rewrite Ef. discriminate.
      - rewrite <- Ef in *. rewrite sub_not_kept, IH; trivial.
        apply tight_true_plain. intros p. rewrite Ef. discriminate. }
    cbn [tight app_x text]. rewrite !append_assoc.
    destruct b; cbn [negb append].
    + exact E.
    + rewrite sub_not_other by reflexivity. f_equal. exact E.
  - cbn [tight app_x text]. rewrite ?append_assoc. cbn [append].
    rewrite sub_not_other by reflexivity.
    rewrite IHf by (trivial; sub_proper H).
    cbn [append]. do 5 miss_char.
    rewrite IHg by (trivial; sub_proper H).
    cbn [append]. rewrite sub_not_other by reflexivity. reflexivity.
  - cbn [tight app_x text]. rewrite ?append_assoc. cbn [append].
    rewrite sub_not_other by reflexivity.
    rewrite IHf by (trivial; sub_proper H).
    cbn [append]. do 4 miss_char.
    rewrite IHg by (trivial; sub_proper H).
    cbn [append]. rewrite sub_not_other by reflexivity. reflexivity.
Qed.

(** The text that [app.py] hands to [eval]. *)
Lemma app_rewritten_write (f : formula) :
  proper f -> App.rewritten (write f) = text (app_x true f).
Proof.
  intros H. unfold App.rewritten. cbv zeta.
  rewrite (no_dash_arrow_kept " implies ") by now apply write_no_dash.
  assert (E : Py.replace "<->" " iff " (write f) = write f).
  { unfold Py.replace. apply scan_absent, no_dash_no_arrow. now apply write_no_dash. }
  rewrite E.
  assert (Eraw := app_symbols_write f H). unfold app_symbols in Eraw. rewrite Eraw.
  rewrite <- (append_empty (raw f)), sub_spaces_raw by exact H.
  cbn [Py.sub_spaces]. rewrite append_empty, strip_tight by exact H.
  rewrite <- (append_empty (tight true f)), sub_not_tight by trivial.
  cbn [Py.sub_not]. now rewrite append_empty.
Qed.

Lemma get_as_dict (a : assignment) (p : ascii) :
  Py.get (as_dict a) (String p "") = option_map Py.VBool (ChatBot.item a p).
Proof.
  induction a as [|[k v] a IH]; [reflexivity|].
  cbn [as_dict map Py.get ChatBot.item fst snd String.eqb].
  destruct (Ascii.eqb k p); [reflexivity|exact IH].
Qed.

Lemma app_x_capitals (f : formula) : proper f -> forall b, capitals (app_x b f).
Proof.
  induction f as [q|bang f IH|amp f IHf g IHg|f IHf g IHg]; intros H b.
  - apply H. now left.
  - cbn [app_x capitals]. destruct f as [p| | |] eqn:E;
      first [now apply IH | apply H; now left].
  - split; [apply IHf|apply IHg]; sub_proper H.
  - split; [apply IHf|apply IHg]; sub_proper H.
Qed.

Lemma app_x_need (f : formula) : forall b, need (app_x b f) <= 7 * depth f + 2.
Proof.
  induction f as [q|bang f IH|amp f IHf g IHg|f IHf g IHg]; intros b.
  - cbn. lia.
  - cbn [app_x need depth]. destruct f as [p| | |] eqn:E;
      first [specialize (IH true); lia | cbn; lia].
  - cbn [app_x need depth]. specialize (IHf false). specialize (IHg true). lia.
  - cbn [app_x need depth]. specialize (IHf false). specialize (IHg true). lia.
Qed.

Lemma app_x_names (f : formula) :
  forall b p, In p (names (app_x b f)) -> In p (letters f).
Proof.
  induction f as [q|bang f IH|amp f IHf g IHg|f IHf g IHg]; intros b p.
  - exact (fun H => H).
  - cbn [app_x names letters]. destruct f as [q| | |] eqn:E;
      first [apply IH | exact (fun H => H)].
  - cbn [app_x names letters]. rewrite !in_app_iff.
    intros [H|H]; [left; now apply IHf in H|right; now apply IHg in H].
  - cbn [app_x names letters]. rewrite !in_app_iff.
    intros [H|H]; [left; now apply IHf in H|right; now apply IHg in H].
Qed.

Lemma app_x_value (v : ascii -> bool) (f : formula) :
  forall b, value_of v (app_x b f) = holds v f.
Proof.
  induction f as [q|bang f IH|amp f IHf g IHg|f IHf g IHg]; intros b.
  - reflexivity.
  - cbn [app_x value_of holds]. destruct f as [q| | |] eqn:E;
      first [now rewrite IH | reflexivity].
  - cbn [app_x value_of holds]. now rewrite IHf, IHg.
  - cbn [app_x value_of holds]. now rewrite IHf, IHg.
Qed.

Lemma app_formula_value (f : formula) (a : assignment) :
  proper f -> depth f <= 56 ->
  (forall p, In p (letters f) -> ChatBot.item a p <> None) ->
  App.evaluate_expression (write f) a = Some (Py.VBool (holds (valuation a) f)).
Proof.
  intros Hf Hdepth Hbound. unfold App.evaluate_expression.
  rewrite app_rewritten_write by trivial.
  rewrite (eval_text _ _ (valuation a)).
  - now rewrite app_x_value.
  - now apply app_x_capitals.
  - assert (H := app_x_need f true). unfold Py.fuel. lia.
  - intros p Hp. apply app_x_names in Hp. unfold bound, valuation.
    rewrite get_as_dict. specialize (Hbound p Hp).
    now destruct (ChatBot.item a p).
Qed.

(** X10.  On a formula in this notation, nested at most 56 deep, whose
    propositions all have a value in the assignment,
    [evaluate_expression] of [app.py] returns the truth value of the
    formula. *)
Theorem app_evaluates_formula (f : formula) (a : assignment) :
  proper f -> depth f <= 56 ->
  (forall p, In p (letters f) -> ChatBot.item a p <> None) ->
  App.evaluate_expression (write f) a = Some (Py.VBool (holds (valuation a) f)).
Proof. apply app_formula_value. Qed.

Lemma app_evaluates_formula_witness :
  App.evaluate_expression "(!P v (Q & ~R))"
    [("P"%char, true); ("Q"%char, true); ("R"%char, false)]
  = Some (Py.VBool true).
Proof.
  apply (app_evaluates_formula
           (Disj (Neg true (Var "P")) (Conj true (Var "Q") (Neg false (Var "R"))))
           [("P"%char, true); ("Q"%char, true); ("R"%char, false)]).
  - intros p H. cbn in H. repeat destruct H as [<-|H]; try reflexivity. destruct H.
  - cbn. lia.
  - intros p H. cbn in H. repeat destruct H as [<-|H]; try discriminate. destruct H.
Defined.

(** *** The verdicts on formulas *)

Lemma capital_absent (p : ascii) (s : string) :
  Py.is_AZ p = true -> Py.any_char Py.is_AZ s = false ->
  Py.any_char (Ascii.eqb p) s = false.
Proof.
  intros Hp. induction s as [|c s IH]; [reflexivity|].
  cbn [Py.any_char]. intros H. apply orb_false_elim in H as [Hc Hs].
  rewrite IH by exact Hs.
  now destruct (capital_differs p c Hp Hc) as [-> _].
Qed.

Lemma write_letters (f : formula) (p : ascii) :
  Py.is_AZ p = true ->
  Py.any_char (Ascii.eqb p) (write f) = true <-> In p (letters f).
Proof.
  intros Hp. induction f as [q|bang f IH|amp f IHf g IHg|f IHf g IHg];
    cbn [write letters].
  - cbn [Py.any_char In]. rewrite orb_false_r. split.
    + intros H. apply Ascii.eqb_eq in H. auto.
    + intros [->|[]]. apply Ascii.eqb_refl.
  - rewrite any_char_app, capital_absent by (trivial; now destruct bang). exact IH.
  - rewrite !any_char_app, in_app_iff.
    rewrite (capital_absent p "("), (capital_absent p ")"),
      (capital_absent p (if amp then " & " else " ^ "))
      by (trivial; now destruct amp).
    rewrite orb_false_r. cbn [orb]. rewrite orb_true_iff. tauto.
  - rewrite !any_char_app, in_app_iff.
    rewrite (capital_absent p "("), (capital_absent p ")"), (capital_absent p " v ")
      by trivial.
    rewrite orb_false_r. cbn [orb]. rewrite orb_true_iff. tauto.
Qed.

Lemma propositions_write (f : formula) (p : ascii) :
  proper f -> In p (get_propositions (write f)) <-> In p (letters f).
Proof.
  intros Hf. rewrite propositions_In, findall_exact. split.
  - intros [Hp H]. now apply write_letters.
  - intros H. split; [now apply Hf|]. apply write_letters; [now apply Hf|exact H].
Qed.

Lemma letters_inhabited (f : formula) : exists p, In p (letters f).
Proof.
  induction f as [q|bang f IH|amp f [p IHf] g IHg|f [p IHf] g IHg]; cbn [letters].
  - exists q. now left.
  - exact IH.
  - exists p. apply in_or_app. now left.
  - exists p. apply in_or_app. now left.
Qed.

Lemma item_combine (props : list ascii) (row : list bool) (p : ascii) :
  In p props -> List.length row = List.length props ->
  ChatBot.item (combine props row) p <> None.
Proof.
  revert row. induction props as [|k props IH]; intros [|b row] Hin Hlen;
    try discriminate; [destruct Hin|].
  cbn [combine ChatBot.item]. destruct (Ascii.eqb_spec k p) as [|Hne]; [discriminate|].
  apply IH; [|now injection Hlen]. destruct Hin; [contradiction|assumption].
Qed.

Lemma valuation_combine (props : list ascii) (v : ascii -> bool) (p : ascii) :
  In p props -> valuation (combine props (map v props)) p = v p.
Proof.
  unfold valuation. induction props as [|k props IH]; intros Hin; [destruct Hin|].
  cbn [map combine ChatBot.item]. destruct (Ascii.eqb_spec k p) as [->|Hne];
    [reflexivity|].
  apply IH. destruct Hin; [contradiction|assumption].
Qed.

Lemma holds_ext (v v' : ascii -> bool) (f : formula) :
  (forall p, In p (letters f) -> v p = v' p) -> holds v f = holds v' f.
Proof.
  induction f as [q|bang f IH|amp f IHf g IHg|f IHf g IHg]; intros H;
    cbn [holds letters] in *.
  - apply H. now left.
  - now rewrite IH.
  - rewrite IHf, IHg; trivial; intros p Hp; apply H, in_or_app; auto.
  - rewrite IHf, IHg; trivial; intros p Hp; apply H, in_or_app; auto.
Qed.

Lemma combine_capitals (props : list ascii) (row : list bool) :
  (forall p, In p props -> Py.is_AZ p = true) ->
  Forall (fun item => Py.is_AZ (fst item) = true) (combine props row).
Proof.
  revert row. induction props as [|k props IH]; intros row H; [constructor|].
  destruct row as [|b row]; [constructor|]. cbn [combine]. constructor.
  - apply H. now left.
  - apply IH. intros p Hp. apply H. now right.
Qed.

(** What the rows of the truth table of a formula evaluate to. *)
Section Rows.
Variable f : formula.
Hypothesis Hproper : proper f.
Hypothesis Hdepth : depth f <= 56.

Let props := get_propositions (write f).

Lemma row_covers (row : list bool) :
  List.length row = List.length props ->
  forall p, In p (letters f) -> ChatBot.item (combine props row) p <> None.
Proof.
  intros Hlen p Hp. apply item_combine; [|exact Hlen].
  now apply propositions_write.
Qed.

Lemma chat_row (row : list bool) :
  List.length row = List.length props ->
  ChatBot.evaluate_expression (write f) (combine props row)
  = Some (Py.VBool (holds (valuation (combine props row)) f)).
Proof.
  intros Hlen. apply chat_formula_value; trivial.
  - apply combine_capitals. intros p Hp. now apply propositions_In, findall_In in Hp.
  - now apply row_covers.
Qed.

Lemma app_row (row : list bool) :
  List.length row = List.length props ->
  App.evaluate_expression (write f) (combine props row)
  = Some (Py.VBool (holds (valuation (combine props row)) f)).
Proof.
  intros Hlen. apply app_formula_value; trivial. now apply row_covers.
Qed.

Lemma every_valuation (v : ascii -> bool) :
  exists row,
    In row (all_assignments props)
    /\ holds (valuation (combine props row)) f = holds v f.
Proof.
  exists (map v props). split.
  - apply rows_complete, length_map.
  - apply holds_ext. intros p Hp. apply valuation_combine.
    now apply propositions_write.
Qed.

Lemma props_inhabited : props <> [].
Proof.
  destruct (letters_inhabited f) as [p Hp].
  apply propositions_write in Hp; trivial. fold props in Hp.
  intros E. rewrite E in Hp. destruct Hp.
Qed.

End Rows.

Lemma is_False_VBool (h : bool) : Py.is_False (Py.VBool h) = negb h.
Proof. now destruct h. Qed.

(** X11.  On a formula in this notation, nested at most 56 deep,
    [check_validity] of [chat_bot12.py] decides validity: it returns
    [Tautology] only if the formula is true under every valuation, and
    otherwise a counterexample, over the propositions of the formula,
    under which the formula is false. *)
Theorem chat_decides_formula (f : formula) :
  proper f -> depth f <= 56 ->
  exists verdict,
    ChatBot.check_validity (write f) = Some verdict
    /\ match verdict with
       | Tautology => forall v, holds v f = true
       | NotTautology c =>
           map fst c = get_propositions (write f) /\ holds (valuation c) f = false
       | Invalid _ => False
       end.
Proof.
  intros Hf Hdepth. unfold ChatBot.check_validity.
  assert (Hprops := props_inhabited f Hf).
  destruct (get_propositions (write f)) as [|p0 ps] eqn:Eprops; [contradiction|].
  rewrite <- Eprops in *. clear Hprops.
  replace (List.length (get_propositions (write f)) =? 0)%nat with false
    by (rewrite Eprops; reflexivity).
  assert (Hlen : forall row, In row (all_assignments (get_propositions (write f))) ->
                             List.length row = List.length (get_propositions (write f)))
    by (intros row; apply rows_complete).
  destruct (ChatBot.truth_table _ _ _) as [[|c|message]|] eqn:E.
  - exists Tautology. split; [reflexivity|]. intros v.
    apply ChatBotFacts.chat_truth_table_Tautology in E.
    destruct (every_valuation f Hf v) as (row & Hin & <-).
    rewrite Forall_forall in E. destruct (E row Hin) as (result & Heval & Hpass).
    rewrite chat_row in Heval by auto. injection Heval as <-.
    rewrite is_False_VBool in Hpass. now apply negb_false_iff.
  - exists (NotTautology c). split; [reflexivity|].
    apply ChatBotFacts.chat_truth_table_NotTautology in E as (row & Hrow & ->);
      [|apply propositions_NoDup|exact Hlen].
    apply first_row_In in Hrow as [Hin (result & Heval & Hfalse)].
    split; [apply combine_keys; auto|].
    rewrite chat_row in Heval by auto. injection Heval as <-.
    rewrite is_False_VBool in Hfalse. now apply negb_true_iff.
  - rewrite ChatBotFacts.chat_truth_table_table in E.
    now apply table_not_Invalid in E.
  - rewrite ChatBotFacts.chat_truth_table_table in E. exfalso. revert E.
    apply table_total, Forall_forall. intros row Hin.
    unfold ChatBotFacts.judge. rewrite chat_row by auto.
    rewrite ChatBotFacts.restricted_combine by (auto using propositions_NoDup).
    now destruct (Py.is_False _).
Qed.

Lemma chat_decides_formula_witness :
  exists verdict,
    ChatBot.check_validity "((P ^ Q) v (~P v !Q))" = Some verdict
    /\ match verdict with
       | Tautology =>
           forall v, holds v (Disj (Conj false (Var "P") (Var "Q"))
                                   (Disj (Neg false (Var "P")) (Neg true (Var "Q")))) = true
       | NotTautology c =>
           map fst c = get_propositions "((P ^ Q) v (~P v !Q))"
           /\ holds (valuation c)
                (Disj (Conj false (Var "P") (Var "Q"))
                      (Disj (Neg false (Var "P")) (Neg true (Var "Q")))) = false
       | Invalid _ => False
       end.
Proof.
  apply (chat_decides_formula
           (Disj (Conj false (Var "P") (Var "Q"))
                 (Disj (Neg false (Var "P")) (Neg true (Var "Q"))))).
  - intros p H. cbn in H. repeat destruct H as [<-|H]; try reflexivity. destruct H.
  - cbn. lia.
Defined.

(** *** [app.py], where [v] is refused *)

Fixpoint plain (f : formula) : Prop :=
  match f with
  | Var _ => True
  | Neg _ f => plain f
  | Conj _ f g => plain f /\ plain g
  | Disj _ _ => False
  end.

Lemma capital_not_lowercase (p : ascii) :
  Py.is_AZ p = true -> Py.isalpha p && Py.islower p = false.
Proof.
  destruct p as [[] [] [] [] [] [] [] []]; vm_compute; intros H;
    first [discriminate H | reflexivity].
Qed.

Lemma plain_no_lowercase (f : formula) :
  proper f -> plain f -> App.has_lowercase (write f) = false.
Proof.
  unfold App.has_lowercase.
  induction f as [q|bang f IH|amp f IHf g IHg|f IHf g IHg]; intros H Hplain;
    cbn [write plain] in *.
  - cbn [Py.any_char]. rewrite orb_false_r. apply capital_not_lowercase, H. now left.
  - rewrite any_char_app, IH by trivial. now destruct bang.
  - destruct Hplain as [Hpf Hpg].
    rewrite !any_char_app, IHf, IHg by (trivial; sub_proper H). now destruct amp.
  - destruct Hplain.
Qed.

(** X12.  On a formula without [v], nested at most 56 deep, [check_validity]
    of [app.py] decides validity: it returns [Tautology] only if the
    formula is true under every valuation, and otherwise the text of a
    counterexample, over the propositions of the formula, under which
    the formula is false. *)
Theorem app_decides_formula (f : formula) :
  proper f -> plain f -> depth f <= 56 ->
  exists verdict,
    App.check_validity (write f) = Some verdict
    /\ match verdict with
       | Tautology => forall v, holds v f = true
       | NotTautology counter =>
           exists c : assignment,
             counter = App.formatted c
             /\ map fst c = get_propositions (write f)
             /\ holds (valuation c) f = false
       | Invalid _ => False
       end.
Proof.
  intros Hf Hplain Hdepth. unfold App.check_validity.
  rewrite plain_no_lowercase by trivial.
  assert (Hprops := props_inhabited f Hf).
  destruct (get_propositions (write f)) as [|p0 ps] eqn:Eprops; [contradiction|].
  rewrite <- Eprops in *. clear Hprops.
  assert (Hlen : forall row, In row (all_assignments (get_propositions (write f))) ->
                             List.length row = List.length (get_propositions (write f)))
    by (intros row; apply rows_complete).
  destruct (App.truth_table _ _ _) as [[|counter|message]|] eqn:E.
  - exists Tautology. split; [reflexivity|]. intros v.
    apply AppFacts.app_truth_table_Tautology in E.
    destruct (every_valuation f Hf v) as (row & Hin & <-).
    rewrite Forall_forall in E. destruct (E row Hin) as (result & Heval & Hpass).
    rewrite app_row in Heval by auto. injection Heval as <-. exact Hpass.
  - exists (NotTautology counter). split; [reflexivity|].
    apply AppFacts.app_truth_table_NotTautology in E as (row & Hrow & ->).
    apply first_row_In in Hrow as [Hin (result & Heval & Hfalse)].
    exists (combine (get_propositions (write f)) row).
    split; [reflexivity|]. split; [apply combine_keys; auto|].
    rewrite app_row in Heval by auto. injection Heval as <-. exact Hfalse.
  - rewrite AppFacts.app_truth_table_table in E.
    now apply table_not_Invalid in E.
  - rewrite AppFacts.app_truth_table_table in E. exfalso. revert E.
    apply table_total, Forall_forall. intros row Hin.
    unfold AppFacts.judge. rewrite app_row by auto. discriminate.
Qed.

Lemma app_decides_formula_witness :
  exists verdict,
    App.check_validity "~((P & ~Q) ^ !P)" = Some verdict
    /\ match verdict with
       | Tautology =>
           forall v, holds v (Neg false (Conj false
                                 (Conj true (Var "P") (Neg false (Var "Q")))
                                 (Neg true (Var "P")))) = true
       | NotTautology counter =>
           exists c : assignment,
             counter = App.formatted c
             /\ map fst c = get_propositions "~((P & ~Q) ^ !P)"
             /\ holds (valuation c)
                  (Neg false (Conj false
                     (Conj true (Var "P") (Neg false (Var "Q")))
                     (Neg true (Var "P")))) = false
       | Invalid _ => False
       end.
Proof.
  apply (app_decides_formula
           (Neg false (Conj false
              (Conj true (Var "P") (Neg false (Var "Q")))
              (Neg true (Var "P"))))).
  - intros p H. cbn in H. repeat destruct H as [<-|H]; try reflexivity. destruct H.
  - cbn. tauto.
  - cbn. lia.
Defined.

(** *** The two programs side by side *)

(** A verdict of [chat_bot12.py] with its counterexample worded as
    [app.py] words it. *)
Definition worded (check : verdict assignment) : verdict string :=
  match check with
  | Tautology => Tautology
  | NotTautology c => NotTautology (App.formatted c)
  | Invalid message => Invalid message
  end.

Lemma truth_tables_agree (f : formula) (rows : list (list bool)) :
  proper f -> depth f <= 56 ->
  (forall row, In row rows ->
               List.length row = List.length (get_propositions (write f))) ->
  App.truth_table (write f) (get_propositions (write f)) rows
  = option_map worded
      (ChatBot.truth_table (write f) (get_propositions (write f)) rows).
Proof.
  intros Hf Hdepth. induction rows as [|row rows IH]; intros Hlen; [reflexivity|].
  cbn [App.truth_table ChatBot.truth_table].
  rewrite app_row, chat_row by (trivial; apply Hlen; now left).
  rewrite is_False_VBool. cbn [Py.truthy].
  destruct (holds _ f); cbn [negb].
  - apply IH. intros r Hr. apply Hlen. now right.
  - rewrite ChatBotFacts.restricted_combine;
      [reflexivity|apply propositions_NoDup|apply Hlen; now left].
Qed.

(** X13.  On a formula without [v], nested at most 56 deep, the two programs
    give the same verdict: the same counterexample, [app.py] giving it
    as text. *)
Theorem programs_agree (f : formula) :
  proper f -> plain f -> depth f <= 56 ->
  App.check_validity (write f) = option_map worded (ChatBot.check_validity (write f)).
Proof.
  intros Hf Hplain Hdepth. unfold App.check_validity, ChatBot.check_validity.
  rewrite plain_no_lowercase by trivial.
  assert (Hprops := props_inhabited f Hf).
  destruct (get_propositions (write f)) as [|p0 ps] eqn:Eprops; [contradiction|].
  rewrite <- Eprops in *.
  replace (List.length (get_propositions (write f)) =? 0)%nat with false
    by (rewrite Eprops; reflexivity).
  apply truth_tables_agree; trivial. intros row. apply rows_complete.
Qed.

Lemma programs_agree_witness :
  App.check_validity "~((P & ~Q) ^ !P)"
  = option_map worded (ChatBot.check_validity "~((P & ~Q) ^ !P)").
Proof.
  apply (programs_agree
           (Neg false (Conj false
              (Conj true (Var "P") (Neg false (Var "Q")))
              (Neg true (Var "P"))))).
  - intros p H. cbn in H. repeat destruct H as [<-|H]; try reflexivity. destruct H.
  - cbn. tauto.
  - cbn. lia.
Defined.

(** *** The first row at which a formula is false *)

(** The truth value of a formula on a row of its truth table. *)
Definition row_value (f : formula) (row : list bool) : bool :=
  holds (valuation (combine (get_propositions (write f)) row)) f.

(** The verdict that the truth table of a formula calls for: the first
    row, in the order of the table, on which the formula is false, or
    [Tautology] when there is none. *)
Definition table_verdict (f : formula) : verdict assignment :=
  match find (fun row => negb (row_value f row))
             (all_assignments (get_propositions (write f))) with
  | Some row => NotTautology (combine (get_propositions (write f)) row)
  | None => Tautology
  end.

Lemma chat_truth_table_find (f : formula) (rows : list (list bool)) :
  proper f -> depth f <= 56 ->
  (forall row, In row rows ->
               List.length row = List.length (get_propositions (write f))) ->
  ChatBot.truth_table (write f) (get_propositions (write f)) rows
  = Some match find (fun row => negb (row_value f row)) rows with
         | Some row => NotTautology (combine (get_propositions (write f)) row)
         | None => Tautology
         end.
Proof.
  intros Hf Hdepth. induction rows as [|row rows IH]; intros Hlen; [reflexivity|].
  cbn [ChatBot.truth_table find].
  rewrite chat_row by (trivial; apply Hlen; now left).
  rewrite is_False_VBool. unfold row_value at 1.
  destruct (holds _ f); cbn [negb].
  - apply IH. intros r Hr. apply Hlen. now right.
  - rewrite ChatBotFacts.restricted_combine;
      [reflexivity|apply propositions_NoDup|apply Hlen; now left].
Qed.

Lemma chat_check_find (f : formula) :
  proper f -> depth f <= 56 ->
  ChatBot.check_validity (write f) = Some (table_verdict f).
Proof.
  intros Hf Hdepth. unfold ChatBot.check_validity, table_verdict.
  assert (Hprops := props_inhabited f Hf).
  destruct (get_propositions (write f)) as [|p0 ps] eqn:Eprops; [contradiction|].
  rewrite <- Eprops in *.
  replace (List.length (get_propositions (write f)) =? 0)%nat with false
    by (rewrite Eprops; reflexivity).
  apply chat_truth_table_find; trivial. intros row. apply rows_complete.
Qed.

(** X16.  On a formula in this notation, nested at most 56 deep,
    [check_validity] of [chat_bot12.py] returns the verdict of the truth
    table: the propositions are the letters of the formula, the table
    has [2^n] rows, and the counterexample is the first of them on
    which the formula is false. *)
Theorem chat_first_false_row (f : formula) :
  proper f -> depth f <= 56 ->
  (forall p, In p (get_propositions (write f)) <-> In p (letters f))
  /\ List.length (all_assignments (get_propositions (write f)))
     = 2 ^ List.length (get_propositions (write f))
  /\ ChatBot.check_validity (write f) = Some (table_verdict f).
Proof.
  intros Hf Hdepth. repeat split.
  - now apply propositions_write.
  - now apply propositions_write.
  - apply rows_length.
  - now apply chat_check_find.
Qed.

(** [~(P ^ ~Q)]: false on the second row, [P=True, Q=False]. *)
Lemma chat_first_false_row_witness :
  (forall p, In p (get_propositions "~(P ^ ~Q)") <-> In p ["P"; "Q"]%char)
  /\ List.length (all_assignments (get_propositions "~(P ^ ~Q)"))
     = 2 ^ List.length (get_propositions "~(P ^ ~Q)")
  /\ ChatBot.check_validity "~(P ^ ~Q)"
     = Some (table_verdict (Neg false (Conj false (Var "P") (Neg false (Var "Q"))))).
Proof.
  apply (chat_first_false_row (Neg false (Conj false (Var "P") (Neg false (Var "Q"))))).
  - intros p H. cbn in H. repeat destruct H as [<-|H]; try reflexivity. destruct H.
  - cbn. lia.
Defined.

(** X17.  On a formula without [v], nested at most 56 deep,
    [check_validity] of [app.py] returns the verdict of the truth
    table, the counterexample, the first row on which the formula is
    false, being given as text. *)
Theorem app_first_false_row (f : formula) :
  proper f -> plain f -> depth f <= 56 ->
  App.check_validity (write f) = Some (worded (table_verdict f)).
Proof.
  intros Hf Hplain Hdepth. unfold App.check_validity.
  rewrite plain_no_lowercase by trivial.
  assert (Hprops := props_inhabited f Hf).
  destruct (get_propositions (write f)) as [|p0 ps] eqn:Eprops; [contradiction|].
  rewrite <- Eprops in *.
  assert (Hlen : forall row, In row (all_assignments (get_propositions (write f))) ->
                             List.length row = List.length (get_propositions (write f)))
    by (intros row; apply rows_complete).
  rewrite truth_tables_agree, chat_truth_table_find by trivial.
  reflexivity.
Qed.

(** [~(P ^ ~Q)] again: [app.py] answers [P=True, Q=False]. *)
Lemma app_first_false_row_witness :
  App.check_validity "~(P ^ ~Q)"
  = Some (worded (table_verdict (Neg false (Conj false (Var "P") (Neg false (Var "Q")))))).
Proof.
  apply (app_first_false_row (Neg false (Conj false (Var "P") (Neg false (Var "Q"))))).
  - intros p H. cbn in H. repeat destruct H as [<-|H]; try reflexivity. destruct H.
  - cbn. tauto.
  - cbn. lia.
Defined.

(** *** Implications *)

(** Two expressions side by side with the word [implies] between them:
    what an arrow between two formulas becomes. *)
Definition juxtaposed (x y : pyx) : string := text x ++ " implies " ++ text y.

Lemma prepend_tokens (ts : list Py.token) :
  prepend ts (Py.Tokens []) = Py.Tokens ts.
Proof.
  induction ts as [|t ts IH]; [reflexivity|]. now rewrite prepend_cons, IH.
Qed.

Lemma lex_implies (rest : string) :
  Py.lex "" ltac:(let t := eval cbn [append] in (" implies " ++ rest) in exact t)
  = Py.emit (Py.NAME "implies") (Py.lex "" rest).
Proof. reflexivity. Qed.

(** [eval] refuses the juxtaposition: after the first expression, a
    name follows where the expression should end. *)
Lemma eval_juxtaposed (globals locals : Py.dict) (x y : pyx) :
  capitals x -> capitals y -> need x + 2 <= Py.fuel ->
  Py.eval (juxtaposed x y) globals locals = Some (Py.Raises Py.SyntaxError).
Proof.
  intros Hx Hy Hfuel. unfold Py.eval, juxtaposed.
  rewrite lex_text by trivial. cbn [append]. rewrite lex_implies.
  rewrite <- (append_empty (text y)), lex_text by trivial.
  change (Py.lex "" "") with (Py.Tokens []).
  rewrite prepend_tokens.
  change (Py.emit (Py.NAME "implies") (Py.Tokens (toks y)))
    with (Py.Tokens (Py.NAME "implies" :: toks y)).
  assert (E : prepend (toks x) (Py.Tokens (Py.NAME "implies" :: toks y))
              = Py.Tokens (toks x ++ Py.NAME "implies" :: toks y)).
  { induction (toks x) as [|t ts IH]; [reflexivity|].
    rewrite prepend_cons, IH. reflexivity. }
  rewrite E. remember Py.fuel as fuel eqn:Efuel. clear Efuel.
  destruct fuel as [|[|fuel]]; try lia.
  rewrite disjunction_step, conjunction_step, parse_inversion by (trivial; lia).
  reflexivity.
Qed.

(** The formula [f -> g]. *)
Definition implication (f g : formula) : string := write f ++ " -> " ++ write g.

Lemma no_dash_arrow_app (new s t : string) :
  Py.any_char (fun c => Ascii.eqb c "-") s = false ->
  Py.replace "->" new (s ++ t) = s ++ Py.replace "->" new t.
Proof.
  unfold Py.replace. induction s as [|c s IH]; [reflexivity|].
  cbn [Py.any_char append]. intros H. apply orb_false_elim in H as [Hc Hs].
  rewrite scan_arrow, Hc. cbn [andb]. now rewrite IH.
Qed.

Lemma arrow_replaced (new : string) (f g : formula) :
  proper f -> proper g ->
  Py.replace "->" new (implication f g) = write f ++ " " ++ new ++ " " ++ write g.
Proof.
  intros Hf Hg. unfold implication.
  rewrite no_dash_arrow_app by now apply write_no_dash.
  f_equal. unfold Py.replace. cbn [append].
  rewrite scan_skip by decide_prefix. rewrite scan_hit by decide_prefix.
  change (Py.replace_scan "->" new (length "->" - 1) (String ">" (String " " (write g))))
    with (Py.replace_scan "->" new 0 (String " " (write g))).
  rewrite scan_skip by decide_prefix.
  fold (Py.replace "->" new (write g)).
  rewrite no_dash_arrow_kept by now apply write_no_dash.
  reflexivity.
Qed.

Lemma letters_no_dash (new : string) (f g : formula) :
  proper f -> proper g ->
  Py.any_char (fun c => Ascii.eqb c "-") new = false ->
  occurs "->" (write f ++ " " ++ new ++ " " ++ write g) = false.
Proof.
  intros Hf Hg Hnew. apply no_dash_no_arrow.
  rewrite !any_char_app, !write_no_dash, Hnew by trivial. reflexivity.
Qed.

(** **** In [chat_bot12.py] *)

Lemma chat_connectives_implication (f g : formula) :
  proper f -> proper g ->
  ChatBot.connectives (implication f g) = juxtaposed (chat_x unset f) (chat_x unset g).
Proof.
  intros Hf Hg. unfold ChatBot.connectives, juxtaposed.
  rewrite arrow_replaced by trivial.
  assert (E : Py.replace "<->" "iff" (write f ++ " " ++ "implies" ++ " " ++ write g)
              = write f ++ " " ++ "implies" ++ " " ++ write g).
  { unfold Py.replace. apply scan_absent. now apply letters_no_dash. }
  rewrite E.
  assert (S := chat_symbols_app). unfold chat_symbols in S.
  rewrite !S.
  assert (Wf := chat_symbols_write f Hf). assert (Wg := chat_symbols_write g Hg).
  unfold chat_symbols in Wf, Wg. rewrite Wf, Wg. reflexivity.
Qed.

Lemma sub_word_juxtaposed (p : ascii) (b : bool) (state : ascii -> option bool)
    (f g : formula) :
  Py.is_AZ p = true -> proper f -> proper g ->
  Py.sub_word p (Py.str_bool b) false (juxtaposed (chat_x state f) (chat_x state g))
  = juxtaposed (chat_x (update state p b) f) (chat_x (update state p b) g).
Proof.
  intros Hp Hf Hg. unfold juxtaposed.
  rewrite sub_word_text by trivial. f_equal.
  cbn [append]. do 9 pass_char Hp. change (Py.is_word " ") with false.
  rewrite <- (append_empty (text (chat_x state g))).
  rewrite sub_word_text by trivial. cbn [Py.sub_word]. now rewrite append_empty.
Qed.

Lemma chat_rewritten_implication (f g : formula) (a : assignment) :
  Forall (fun item => Py.is_AZ (fst item) = true) a -> proper f -> proper g ->
  exists state,
    ChatBot.rewritten (implication f g) a = juxtaposed (chat_x state f) (chat_x state g).
Proof.
  intros Ha Hf Hg. unfold ChatBot.rewritten.
  rewrite chat_connectives_implication by trivial.
  generalize unset. unfold ChatBot.substitute.
  induction Ha as [|[p b] a Hp Ha IH]; intros state; [now exists state|].
  cbn [fold_left fst snd] in *. rewrite sub_word_juxtaposed by trivial. apply IH.
Qed.

Lemma any_char_found (test : ascii -> bool) (p : ascii) (s : string) :
  test p = true -> Py.any_char (Ascii.eqb p) s = true -> Py.any_char test s = true.
Proof.
  intros Hp. induction s as [|c s IH]; [discriminate|].
  cbn [Py.any_char]. intros H. apply orb_prop in H as [H|H].
  - apply Ascii.eqb_eq in H. subst. now rewrite Hp.
  - rewrite IH by exact H. apply orb_true_r.
Qed.

Lemma implication_has_capital (f g : formula) :
  proper f -> Py.any_char Py.is_AZ (implication f g) = true.
Proof.
  intros Hf. unfold implication. rewrite any_char_app.
  destruct (letters_inhabited f) as [p Hp].
  rewrite (any_char_found Py.is_AZ p); [reflexivity|now apply Hf|].
  apply write_letters; [now apply Hf|exact Hp].
Qed.

(** X14.  In [chat_bot12.py] an implication between two formulas is never
    evaluated: [eval] refuses the rewritten text, so
    [evaluate_expression] returns [False] under every assignment and
    [check_validity] reports every proposition true as a
    counterexample, also when the implication is valid. *)
Theorem chat_implication_rejected (f g : formula) :
  proper f -> proper g -> depth f <= 56 ->
  (forall a, Forall (fun item => Py.is_AZ (fst item) = true) a ->
             ChatBot.evaluate_expression (implication f g) a = Some (Py.VBool false))
  /\ ChatBot.check_validity (implication f g)
     = Some (NotTautology (all_true (implication f g))).
Proof.
  intros Hf Hg Hdepth.
  assert (Hraise : forall a, Forall (fun item => Py.is_AZ (fst item) = true) a ->
             Py.eval (ChatBot.rewritten (implication f g) a) ChatBot.globals_dict []
             = Some (Py.Raises Py.SyntaxError)).
  { intros a Ha. destruct (chat_rewritten_implication f g a Ha Hf Hg) as [state ->].
    apply eval_juxtaposed; try now apply chat_x_capitals.
    assert (H := chat_x_need state f). unfold Py.fuel. lia. }
  split.
  - intros a Ha. unfold ChatBot.evaluate_expression. now rewrite Hraise.
  - apply chat_first_row_raises with Py.SyntaxError.
    + now apply implication_has_capital.
    + apply Hraise. unfold all_true. apply combine_capitals.
      intros p Hp. now apply propositions_In, findall_In in Hp.
Qed.

Lemma chat_implication_rejected_witness :
  (forall a, Forall (fun item => Py.is_AZ (fst item) = true) a ->
             ChatBot.evaluate_expression "(P ^ Q) -> P" a = Some (Py.VBool false))
  /\ ChatBot.check_validity "(P ^ Q) -> P"
     = Some (NotTautology [("P"%char, true); ("Q"%char, true)]).
Proof.
  apply (chat_implication_rejected (Conj false (Var "P") (Var "Q")) (Var "P")).
  - intros p H. cbn in H. repeat destruct H as [<-|H]; try reflexivity. destruct H.
  - intros p H. cbn in H. repeat destruct H as [<-|H]; try reflexivity. destruct H.
  - cbn. lia.
Defined.

(** **** In [app.py] *)

Lemma lstrip_tight (f : formula) (rest : string) :
  proper f -> Py.lstrip (tight false f ++ rest) = tight true f ++ rest.
Proof.
  intros H. destruct f as [p|bang f|amp f g|f g]; cbn [tight]; try reflexivity.
  cbn [append Py.lstrip]. rewrite capital_not_space; [reflexivity|].
  apply H. now left.
Qed.

Lemma app_rewritten_implication (f g : formula) :
  proper f -> proper g ->
  App.rewritten (implication f g) = juxtaposed (app_x true f) (app_x true g).
Proof.
  intros Hf Hg. unfold App.rewritten, juxtaposed. cbv zeta.
  rewrite arrow_replaced by trivial.
  assert (E : Py.replace "<->" " iff " (write f ++ " " ++ " implies " ++ " " ++ write g)
              = write f ++ " " ++ " implies " ++ " " ++ write g).
  { unfold Py.replace. apply scan_absent. now apply letters_no_dash. }
  rewrite E.
  assert (S := app_symbols_app). unfold app_symbols in S. rewrite !S.
  assert (Wf := app_symbols_write f Hf). assert (Wg := app_symbols_write g Hg).
  unfold app_symbols in Wf, Wg. rewrite Wf, Wg.
  change (Py.replace "!" " not " (Py.replace "~" " not " (Py.replace "v" " or "
            (Py.replace "&" " and " (Py.replace "^" " and " " ")))))
    with " ".
  change (Py.replace "!" " not " (Py.replace "~" " not " (Py.replace "v" " or "
            (Py.replace "&" " and " (Py.replace "^" " and " " implies ")))))
    with " implies ".
  rewrite sub_spaces_raw by exact Hf. cbn [append].
  rewrite !sub_spaces_space. cbn [append].
  do 7 (rewrite sub_spaces_other by reflexivity).
  rewrite !sub_spaces_space. cbn [append].
  rewrite <- (append_empty (raw g)), sub_spaces_raw by exact Hg.
  cbn [Py.sub_spaces]. rewrite append_empty.
  unfold Py.strip. rewrite lstrip_tight by exact Hf.
  destruct (tight_last g Hg true) as (s & c & Eg & Hc).
  assert (Er : Py.rstrip (tight true f ++ String " " (String "i" (String "m" (String "p"
                 (String "l" (String "i" (String "e" (String "s" (String " "
                 (tight true g))))))))))
               = tight true f ++ " implies " ++ tight true g).
  { rewrite Eg.
    change (tight true f ++ String " " (String "i" (String "m" (String "p"
              (String "l" (String "i" (String "e" (String "s" (String " "
              (s ++ String c ""))))))))))
      with (tight true f ++ " implies " ++ s ++ String c "").
    rewrite <- !append_assoc. now apply rstrip_keep. }
  rewrite Er, sub_not_tight by trivial. cbn [append].
  do 9 (rewrite sub_not_other by reflexivity).
  rewrite <- (append_empty (tight true g)), sub_not_tight by trivial.
  cbn [Py.sub_not]. now rewrite append_empty.
Qed.

Lemma implication_no_lowercase (f g : formula) :
  proper f -> proper g -> plain f -> plain g ->
  App.has_lowercase (implication f g) = false.
Proof.
  intros Hf Hg Pf Pg.
  assert (Ef := plain_no_lowercase f Hf Pf). assert (Eg := plain_no_lowercase g Hg Pg).
  unfold App.has_lowercase, implication in *.
  now rewrite !any_char_app, Ef, Eg.
Qed.

(** X15.  In [app.py] an implication between two formulas is never
    evaluated: [eval] refuses the rewritten text, so
    [evaluate_expression] returns [False] under every assignment and,
    for formulas without [v], [check_validity] reports every
    proposition true as a counterexample, also when the implication is
    valid. *)
Theorem app_implication_rejected (f g : formula) :
  proper f -> proper g -> depth f <= 56 ->
  (forall a, App.evaluate_expression (implication f g) a = Some (Py.VBool false))
  /\ (plain f -> plain g ->
      App.check_validity (implication f g)
      = Some (NotTautology (App.formatted (all_true (implication f g))))).
Proof.
  intros Hf Hg Hdepth.
  assert (Hraise : forall a,
             Py.eval (App.rewritten (implication f g)) App.globals_dict (as_dict a)
             = Some (Py.Raises Py.SyntaxError)).
  { intros a. rewrite app_rewritten_implication by trivial.
    apply eval_juxtaposed; try now apply app_x_capitals.
    assert (H := app_x_need f true). unfold Py.fuel. lia. }
  split.
  - intros a. unfold App.evaluate_expression. now rewrite Hraise.
  - intros Pf Pg. apply app_first_row_raises with Py.SyntaxError.
    + now apply implication_no_lowercase.
    + now apply implication_has_capital.
    + apply Hraise.
Qed.

Lemma app_implication_rejected_witness :
  (forall a, App.evaluate_expression "(P ^ Q) -> P" a = Some (Py.VBool false))
  /\ App.check_validity "(P ^ Q) -> P" = Some (NotTautology "P=True, Q=True").
Proof.
  destruct (app_implication_rejected (Conj false (Var "P") (Var "Q")) (Var "P"))
    as [Hevaluate Hcheck].
  - intros p H. cbn in H. repeat destruct H as [<-|H]; try reflexivity. destruct H.
  - intros p H. cbn in H. repeat destruct H as [<-|H]; try reflexivity. destruct H.
  - cbn. lia.
  - split; [exact Hevaluate|]. apply Hcheck; cbn; tauto.
Defined.
